(** * Credential management: user repository and user creation

    Shallow embedding of
      - [backend/src/repository/users.ts]  (class [UserRepository])
      - [backend/src/service/createUser.ts] ([createUser])
    Asynchronous functions become computations in a state-and-rejection
    monad over the state of the database handle [db]; an awaited promise that
    rejects is a thrown value that aborts the rest of the function unless a
    [try]/[catch] intercepts it. *)

From Stdlib Require Import String Ascii List Bool Arith Lia.
Import ListNotations.
Open Scope string_scope.

Set Implicit Arguments.

(** ** Values *)

(** [User] of [model/users]: the three fields the repository reads and
    writes. *)
Record User : Type := mkUser {
  id : string;
  email : string;
  passwordHash : string
}.

(** An object returned by a query on table [users]: the three user columns
    and whatever other columns the store keeps (the migrations add
    [created_at] and [updated_at]). *)
Record Row : Type := mkRow {
  row_id : string;
  row_email : string;
  row_passwordHash : string;
  row_stamps : list (string * nat)
}.

(** A [User] object is itself an object with the three user properties and
    nothing else. *)
Definition asRow (u : User) : Row :=
  mkRow (id u) (email u) (passwordHash u) [].

(** Own property names of a row object. *)
Definition fields (r : Row) : list string :=
  (["id"; "email"; "passwordHash"] ++ map fst (row_stamps r))%list.

(** JavaScript [Error] objects.  A database error carries, besides its
    message, the SQLSTATE code and the name of the violated constraint. *)
Record JsError : Type := mkJsError {
  message : string;
  pg_code : option string;
  pg_constraint : option string
}.

(** Anything can be thrown; only some thrown values are [Error]s. *)
Inductive Thrown : Type :=
| IsError (e : JsError)
| NotError (v : string).


Definition constraintOf (err : Thrown) : option string :=
  match err with
  | IsError e => pg_constraint e
  | NotError _ => None
  end.

(** [new Error(msg)] *)
Definition new_Error (msg : string) : Thrown :=
  IsError (mkJsError msg None None).

(** A settled promise. *)
Inductive Settled (A : Type) : Type :=
| Fulfilled (a : A)
| Rejected (e : Thrown).
Arguments Fulfilled {A} a.
Arguments Rejected {A} e.

(** [s.includes(search)] *)
Definition includes (s search : string) : bool :=
  match String.index 0 search s with
  | Some _ => true
  | None => false
  end.

(** ** Asynchronous computations over the state of the database handle *)

Definition Async (S A : Type) : Type := S -> Settled A * S.

Definition ret {S A : Type} (a : A) : Async S A :=
  fun s => (Fulfilled a, s).

Definition throw {S A : Type} (e : Thrown) : Async S A :=
  fun s => (Rejected e, s).

Definition bind {S A B : Type} (m : Async S A) (k : A -> Async S B)
  : Async S B :=
  fun s =>
    match m s with
    | (Fulfilled a, s') => k a s'
    | (Rejected e, s') => (Rejected e, s')
    end.

Definition try_catch {S A : Type} (m : Async S A) (h : Thrown -> Async S A)
  : Async S A :=
  fun s =>
    match m s with
    | (Fulfilled a, s') => (Fulfilled a, s')
    | (Rejected e, s') => h e s'
    end.

(** A promise that settles without touching the database. *)
Definition settle {S A : Type} (r : Settled A) : Async S A :=
  fun s => (r, s).

Declare Scope async_scope.
Delimit Scope async_scope with async.
Notation "x <- m ;; k" := (bind m (fun x => k))
  (at level 61, m at next level, right associativity) : async_scope.
Notation "m ;; k" := (bind m (fun _ => k))
  (at level 61, right associativity) : async_scope.
Open Scope async_scope.

(** ** The database handle

    [db] is the query-builder handle exported by [database/db]; the
    repository issues four kinds of query on it:
      - [db('users').where({ id }).first()]
      - [db('users').where({ email }).first()]
      - [db('users').insert(row)]
      - [db('users').where({ id }).update(row)]
    [S] is the state of whatever stands behind the handle. *)
Record Knex (S : Type) : Type := mkKnex {
  first_where_id : string -> Async S (option Row);
  first_where_email : string -> Async S (option Row);
  insert : User -> Async S unit;
  update_where_id : string -> User -> Async S unit
}.

(** ** repository/users.ts *)

Definition dq : string := String "034"%char "".

(** The text [saveUser] looks for in the message of a failed insert. *)
Definition duplicateKeyText : string :=
  "insert into " ++ dq ++ "users" ++ dq ++ " ("
    ++ dq ++ "email" ++ dq ++ ", "
    ++ dq ++ "id" ++ dq ++ ", "
    ++ dq ++ "password_hash" ++ dq ++ ", "
    ++ dq ++ "phone_number" ++ dq ++ ", "
    ++ dq ++ "username" ++ dq
    ++ ") values ($1, $2, $3, $4, $5) - duplicate key value violates unique constraint "
    ++ dq ++ "users_email_unique" ++ dq.

Definition DuplicateEmail : Thrown := new_Error "Email already exists".

Definition userToTableRow (register : User) : User :=
  {| id := id register;
     email := email register;
     passwordHash := passwordHash register |}.

Definition tableRowToUser (row : Row) : User :=
  {| id := row_id row;
     email := row_email row;
     passwordHash := row_passwordHash row |}.

(** [err instanceof Error && err.message.includes(duplicateKeyText)] *)
Definition isDuplicateKey (err : Thrown) : bool :=
  match err with
  | IsError e => includes (message e) duplicateKeyText
  | NotError _ => false
  end.

Section UserRepository.
Context {S : Type} (db : Knex S).

Definition findByEmail (e : string) : Async S (option User) :=
  user <- first_where_email db e ;;
  match user with
  | None => ret None
  | Some row => ret (Some (tableRowToUser row))
  end.

Definition findById (i : string) : Async S (option User) :=
  user <- first_where_id db i ;;
  match user with
  | None => ret None
  | Some row => ret (Some (tableRowToUser row))
  end.

Definition saveUser (user : User) : Async S unit :=
  existingUser <- findById (id user) ;;
  match existingUser with
  | Some _ =>
      update_where_id db (id user) (userToTableRow user) ;;
      ret tt
  | None =>
      try_catch (insert db (userToTableRow user))
        (fun err =>
           if isDuplicateKey err
           then throw DuplicateEmail
           else throw err) ;;
      ret tt
  end.
End UserRepository.

(** ** service/createUser.ts *)

Record CreateUserParams : Type := mkParams {
  params_email : string;
  password : string
}.

(** What one call draws from outside the program: the value of
    [randomUUID()] and the salt of the hasher. *)
Record Entropy : Type := mkEntropy {
  uuid : string;
  salt : nat
}.

Definition CreationVerificationFailed : Thrown :=
  new_Error "Failed to create user".

Section CreateUser.
(** [hashPassword] of [service/passwordHash], taken as given: a salted
    one-way transform whose promise may reject. *)
Variable hashPassword : nat -> string -> Settled string.

Context {S : Type} (db : Knex S).

Definition createUserIntent (params : CreateUserParams) (rnd : Entropy)
    (hashed : string) : User :=
  {| id := uuid rnd;
     email := params_email params;
     passwordHash := hashed |}.

Definition createUser (params : CreateUserParams) (rnd : Entropy)
  : Async S User :=
  hashed <- settle (hashPassword (salt rnd) (password params)) ;;
  let intent := createUserIntent params rnd hashed in
  saveUser db intent ;;
  createdUser <- findById db (id intent) ;;
  match createdUser with
  | None => throw CreationVerificationFailed
  | Some u => ret u
  end.
End CreateUser.

(** ** The table behind the handle *)

(** How the query builder words the statements it quotes in front of a
    database error ([<statement> - <database message>]). *)
Record Driver : Type := mkDriver {
  insertSql : string;
  updateSql : string
}.

Record Table : Type := mkTable {
  rows : list Row;
  now : nat
}.

Definition uniqueViolation (sql cname : string) : Thrown :=
  IsError
    {| message := sql ++ " - duplicate key value violates unique constraint "
                      ++ dq ++ cname ++ dq;
       pg_code := Some "23505";
       pg_constraint := Some cname |}.

Definition hasKey (key : Row -> string) (k : string) (r : Row) : bool :=
  String.eqb (key r) k.

(** [where({ id })] and [where({ email })] *)
Definition hasId : string -> Row -> bool := hasKey row_id.
Definition hasEmail : string -> Row -> bool := hasKey row_email.

(** The row a successful insert leaves in the table. *)
Definition stored (payload : User) (t : nat) : Row :=
  mkRow (id payload) (email payload) (passwordHash payload)
        [("created_at", t); ("updated_at", t)].

(** The row a successful update leaves in place of [r]. *)
Definition overwrite (payload : User) (r : Row) : Row :=
  mkRow (id payload) (email payload) (passwordHash payload) (row_stamps r).

(** What an update of the rows with id [i] does to each row. *)
Definition replaced (i : string) (payload : User) (r : Row) : Row :=
  if hasId i r then overwrite payload r else r.

Definition count_by_id (i : string) (t : Table) : nat :=
  length (filter (hasId i) (rows t)).

Definition count_by_email (e : string) (t : Table) : nat :=
  length (filter (hasEmail e) (rows t)).

(** The constraints of the schema: primary key on [id], unique [email]. *)
Definition keys_ok (t : Table) : Prop :=
  NoDup (map row_id (rows t)) /\ NoDup (map row_email (rows t)).

Section UsersTable.
Variable driver : Driver.

(** Modelled from the spec: the point look-up by identifier on the backing
    table (section 4.2), the first row whose [id] matches, if any.  The key
    is a value of the column; [pg_first_where_id] below converts the text
    the repository sends. *)
Definition table_first_where_id (i : string) : Async Table (option Row) :=
  fun t => (Fulfilled (find (hasId i) (rows t)), t).

(** Modelled from the spec: the point look-up by email on the backing table
    (section 4.2). *)
Definition table_first_where_email (e : string)
  : Async Table (option Row) :=
  fun t => (Fulfilled (find (hasEmail e) (rows t)), t).

(** Modelled from the spec: an insert into the backing table, which
    enforces the primary key on [id] and the unique constraint on [email]
    (section 6) and stamps the new row.  The payload holds values of the
    columns; [pg_insert] below converts the texts the repository sends. *)
Definition table_insert (payload : User) : Async Table unit :=
  fun t =>
    if existsb (hasId (id payload)) (rows t)
    then (Rejected (uniqueViolation (insertSql driver) "users_pkey"), t)
    else if existsb (hasEmail (email payload)) (rows t)
    then (Rejected (uniqueViolation (insertSql driver) "users_email_unique"),
          t)
    else (Fulfilled tt,
          mkTable (rows t ++ [stored payload (now t)])%list (S (now t))).

(** Modelled from the spec: an update of the rows of the backing table whose
    [id] is [i]; it sets the three user columns, keeps the other columns,
    and is refused when the result would break a constraint (section 6). *)
Definition table_update_where_id (i : string) (payload : User)
  : Async Table unit :=
  fun t =>
    if negb (existsb (hasId i) (rows t))
    then (Fulfilled tt, t)
    else if existsb (fun r => negb (hasId i r) && hasId (id payload) r)
                    (rows t)
    then (Rejected (uniqueViolation (updateSql driver) "users_pkey"), t)
    else if existsb (fun r => negb (hasId i r) && hasEmail (email payload) r)
                    (rows t)
    then (Rejected (uniqueViolation (updateSql driver) "users_email_unique"),
          t)
    else (Fulfilled tt,
          mkTable (map (replaced i payload) (rows t)) (S (now t))).

(** Modelled from the spec: the relational table [users] behind [db]
    (section 6: primary key [id], unique constraint on [email], timestamps
    kept by the store), used by one client at a time; a write that would
    break a constraint is refused with the database's unique-violation
    error and leaves the table as it was. *)
Definition usersTable : Knex Table :=
  {| first_where_id := table_first_where_id;
     first_where_email := table_first_where_email;
     insert := table_insert;
     update_where_id := table_update_where_id |}.
End UsersTable.

(** ** Observing and disturbing a handle *)

Inductive Call : Type :=
| FirstWhereId (i : string)
| FirstWhereEmail (e : string)
| Insert (payload : User)
| UpdateWhereId (i : string) (payload : User).

Definition logged {S A : Type} (c : Call) (m : Async S A)
  : Async (S * list Call) A :=
  fun st =>
    let (r, s') := m (fst st) in (r, (s', (snd st ++ [c])%list)).

(** The same handle, keeping the list of the queries issued on it. *)
Definition traced {S : Type} (db : Knex S) : Knex (S * list Call) :=
  {| first_where_id := fun i => logged (FirstWhereId i) (first_where_id db i);
     first_where_email :=
       fun e => logged (FirstWhereEmail e) (first_where_email db e);
     insert := fun p => logged (Insert p) (insert db p);
     update_where_id :=
       fun i p => logged (UpdateWhereId i p) (update_where_id db i p) |}.

(** The payloads of the writes in a list of queries. *)
Fixpoint written (l : list Call) : list User :=
  match l with
  | [] => []
  | Insert p :: l' => p :: written l'
  | UpdateWhereId _ p :: l' => p :: written l'
  | _ :: l' => written l'
  end.

Definition yielding {S A : Type} (m : Async S A)
  : Async (S * list (S -> S)) A :=
  fun st =>
    match snd st with
    | [] => let (r, s') := m (fst st) in (r, (s', []))
    | other :: rest =>
        let (r, s') := m (other (fst st)) in (r, (s', rest))
    end.

(** The same handle on a store that other clients write to as well: before
    each query of ours is served, the next pending write of another client
    lands. *)
Definition shared {S : Type} (db : Knex S) : Knex (S * list (S -> S)) :=
  {| first_where_id := fun i => yielding (first_where_id db i);
     first_where_email := fun e => yielding (first_where_email db e);
     insert := fun p => yielding (insert db p);
     update_where_id := fun i p => yielding (update_where_id db i p) |}.

(** ** Sample inputs *)

(** A driver that quotes the insert [saveUser] issues: the three columns of
    [userToTableRow], in the order the text matched by [saveUser] lists its
    own. *)
Definition threeColumns : Driver :=
  {| insertSql :=
       "insert into " ++ dq ++ "users" ++ dq ++ " ("
         ++ dq ++ "email" ++ dq ++ ", "
         ++ dq ++ "id" ++ dq ++ ", "
         ++ dq ++ "passwordHash" ++ dq
         ++ ") values ($1, $2, $3)";
     updateSql :=
       "update " ++ dq ++ "users" ++ dq ++ " set "
         ++ dq ++ "id" ++ dq ++ " = $1, "
         ++ dq ++ "email" ++ dq ++ " = $2, "
         ++ dq ++ "passwordHash" ++ dq ++ " = $3 where "
         ++ dq ++ "id" ++ dq ++ " = $4" |}.

(** A driver that quotes an insert of the five columns named in the text
    matched by [saveUser]. *)
Definition fiveColumns : Driver :=
  {| insertSql :=
       "insert into " ++ dq ++ "users" ++ dq ++ " ("
         ++ dq ++ "email" ++ dq ++ ", "
         ++ dq ++ "id" ++ dq ++ ", "
         ++ dq ++ "password_hash" ++ dq ++ ", "
         ++ dq ++ "phone_number" ++ dq ++ ", "
         ++ dq ++ "username" ++ dq
         ++ ") values ($1, $2, $3, $4, $5)";
     updateSql := updateSql threeColumns |}.

(** A stand-in hasher for running the code: its output depends on the salt
    and on the length of the input only. *)
Definition toyHash (salt : nat) (plain : string) : Settled string :=
  Fulfilled
    ("$argon2id$" ++ String (ascii_of_nat (48 + salt mod 10)) "" ++ "$"
       ++ String (ascii_of_nat (65 + (String.length plain + salt) mod 26)) "").

(** A hasher that gives up. *)
Definition exhausted (salt : nat) (plain : string) : Settled string :=
  Rejected (new_Error "memory allocation failed").

Definition alice : User := mkUser "id-1" "a@x.com" "$argon2id$0$A".
Definition bob : User := mkUser "id-2" "b@x.com" "$argon2id$0$B".

Definition empty : Table := mkTable [] 0.
Definition two : Table :=
  mkTable [stored alice 0; stored bob 1] 2.

(** Writes of other clients of the same store. *)
Definition idle (t : Table) : Table := t.

Definition remove_id (i : string) (t : Table) : Table :=
  mkTable (filter (fun r => negb (hasId i r)) (rows t)) (now t).

Definition rewrite_email (i a : string) (t : Table) : Table :=
  mkTable (map (fun r => if hasId i r
                         then mkRow (row_id r) a (row_passwordHash r)
                                    (row_stamps r)
                         else r) (rows t))
          (now t).

Definition carol : User := mkUser "id-3" "a@x.com" "$argon2id$0$C".

Definition signup : CreateUserParams := mkParams "a@x.com" "Secret123".
Definition signup_again : CreateUserParams := mkParams "a@x.com" "Secret124".

(** A driver whose update errors carry the very text [saveUser] looks for
    after a failed insert. *)
Definition echoing : Driver :=
  {| insertSql := insertSql fiveColumns; updateSql := insertSql fiveColumns |}.

(** ** The column types of [users]

    The creating migration makes [id] a [uuid] column and [email] and
    [password] (later [passwordHash]) [string] columns, that is
    [varchar(255)].  Every value the repository sends is text; the database
    converts it to the type of its column before it looks at the rows, and
    refuses the query when it cannot. *)

(** A text value with a zero character is refused by the database. *)
Fixpoint hasNul (s : string) : bool :=
  match s with
  | EmptyString => false
  | String c s' => Nat.eqb (nat_of_ascii c) 0 || hasNul s'
  end.

Definition isxdigit (c : ascii) : bool :=
  let n := nat_of_ascii c in
  (Nat.leb 48 n && Nat.leb n 57) || (Nat.leb 65 n && Nat.leb n 70)
  || (Nat.leb 97 n && Nat.leb n 102).

Definition lower_hex (c : ascii) : ascii :=
  let n := nat_of_ascii c in
  if Nat.leb 65 n && Nat.leb n 70 then ascii_of_nat (n + 32) else c.

(** Reads [n] bytes of a uuid, two hexadecimal digits each, the next one
    being byte [i]; a hyphen may follow a byte of odd index other than the
    last.  Gives the digits in lower case and what is left of the text. *)
Fixpoint uuid_digits (n i : nat) (src : string) : option (string * string) :=
  match n with
  | 0 => Some (EmptyString, src)
  | S n' =>
      match src with
      | String a (String b rest) =>
          if isxdigit a && isxdigit b
          then
            let rest' :=
              match rest with
              | String "-"%char r => if Nat.odd i && Nat.ltb i 15 then r else rest
              | _ => rest
              end in
            match uuid_digits n' (S i) rest' with
            | Some (ds, tl) =>
                Some (String (lower_hex a) (String (lower_hex b) ds), tl)
            | None => None
            end
          else None
      | _ => None
      end
  end.

(** The input conversion of type [uuid]: sixteen bytes, optional hyphens
    after every second byte, optional braces around the whole; the value is
    given in the form the database prints it, lower case in groups of 8, 4,
    4, 4 and 12 digits.  [None] is an invalid input. *)
Definition uuid_in (source : string) : option string :=
  let braces := match source with String "{"%char _ => true | _ => false end in
  let src := match source with String "{"%char r => r | _ => source end in
  match uuid_digits 16 0 src with
  | Some (ds, tl) =>
      if String.eqb tl (if braces then "}" else "")
      then Some (substring 0 8 ds ++ "-" ++ substring 8 4 ds ++ "-"
                   ++ substring 12 4 ds ++ "-" ++ substring 16 4 ds ++ "-"
                   ++ substring 20 12 ds)
      else None
  | None => None
  end.

Fixpoint all_spaces (s : string) : bool :=
  match s with
  | EmptyString => true
  | String c s' => Nat.eqb (nat_of_ascii c) 32 && all_spaces s'
  end.

(** Storing a text in a [varchar(255)] column: a longer text is refused,
    unless what exceeds 255 characters is spaces only, which are cut off.
    [None] is a refusal. *)
Definition varchar255 (s : string) : option string :=
  if Nat.leb (String.length s) 255 then Some s
  else if all_spaces (substring 255 (String.length s - 255) s)
  then Some (substring 0 255 s)
  else None.

(** How the query builder words the two look-ups. *)
Record Wording : Type := mkWording {
  writes : Driver;
  selectByIdSql : string;
  selectByEmailSql : string
}.

Definition badEncoding (sql : string) : Thrown :=
  IsError
    {| message := sql ++ " - invalid byte sequence for encoding "
                      ++ dq ++ "UTF8" ++ dq ++ ": 0x00";
       pg_code := Some "22021";
       pg_constraint := None |}.

Definition invalidUuid (sql v : string) : Thrown :=
  IsError
    {| message := sql ++ " - invalid input syntax for type uuid: "
                      ++ dq ++ v ++ dq;
       pg_code := Some "22P02";
       pg_constraint := None |}.

Definition valueTooLong (sql : string) : Thrown :=
  IsError
    {| message := sql ++ " - value too long for type character varying(255)";
       pg_code := Some "22001";
       pg_constraint := None |}.

(** The values of a row to write, converted to the column types: first the
    texts are read (encoding, uuid), then fitted to their columns. *)
Definition column_values (sql : string) (payload : User) : Settled User :=
  if hasNul (id payload) || hasNul (email payload)
     || hasNul (passwordHash payload)
  then Rejected (badEncoding sql)
  else
    match uuid_in (id payload) with
    | None => Rejected (invalidUuid sql (id payload))
    | Some i =>
        match varchar255 (email payload), varchar255 (passwordHash payload) with
        | Some e, Some h => Fulfilled (mkUser i e h)
        | _, _ => Rejected (valueTooLong sql)
        end
    end.

(** The key of a look-up or of an update, converted to [uuid]. *)
Definition key_value (sql : string) (i : string) : Settled string :=
  if hasNul i then Rejected (badEncoding sql)
  else
    match uuid_in i with
    | None => Rejected (invalidUuid sql i)
    | Some c => Fulfilled c
    end.

Section PgUsers.
Variable wording : Wording.

Definition pg_first_where_id (i : string) : Async Table (option Row) :=
  c <- settle (key_value (selectByIdSql wording) i) ;;
  table_first_where_id c.

Definition pg_first_where_email (e : string) : Async Table (option Row) :=
  if hasNul e
  then throw (badEncoding (selectByEmailSql wording))
  else table_first_where_email e.

Definition pg_insert (payload : User) : Async Table unit :=
  values <- settle (column_values (insertSql (writes wording)) payload) ;;
  table_insert (writes wording) values.

Definition pg_update_where_id (i : string) (payload : User)
  : Async Table unit :=
  values <- settle (column_values (updateSql (writes wording)) payload) ;;
  c <- settle (key_value (updateSql (writes wording)) i) ;;
  table_update_where_id (writes wording) c values.

(** Modelled from the spec: the table [users] of section 6 with the column
    types the migrations give it: a query whose values do not convert to
    the types of their columns is refused before any row is looked at, and
    the others act on the converted values. *)
Definition pgUsers : Knex Table :=
  {| first_where_id := pg_first_where_id;
     first_where_email := pg_first_where_email;
     insert := pg_insert;
     update_where_id := pg_update_where_id |}.
End PgUsers.

(** A user whose values are already what the columns hold: a uuid as the
    database prints it, texts without zero character that fit. *)
Definition fits_columns (u : User) : Prop :=
  uuid_in (id u) = Some (id u) /\
  hasNul (id u) = false /\ hasNul (email u) = false /\
  hasNul (passwordHash u) = false /\
  String.length (email u) <= 255 /\ String.length (passwordHash u) <= 255.

(** The wording of the driver in use, statement by statement. *)
Definition knexPg : Wording :=
  {| writes := threeColumns;
     selectByIdSql :=
       "select * from " ++ dq ++ "users" ++ dq ++ " where "
         ++ dq ++ "id" ++ dq ++ " = $1 limit $2";
     selectByEmailSql :=
       "select * from " ++ dq ++ "users" ++ dq ++ " where "
         ++ dq ++ "email" ++ dq ++ " = $1 limit $2" |}.

Definition uuid_a : string := "6f1c2a3e-0b4d-4c5e-8f60-7a8b9c0d1e2f".
Definition uuid_b : string := "0a1b2c3d-4e5f-4a6b-9c7d-8e9f0a1b2c3d".
Definition uuid_c : string := "c0ffee00-1234-4abc-8def-0123456789ab".

Definition anna : User := mkUser uuid_a "a@x.com" "$argon2id$0$A".
Definition bert : User := mkUser uuid_b "b@x.com" "$argon2id$0$B".
Definition cleo : User := mkUser uuid_c "a@x.com" "$argon2id$0$C".

Definition pair : Table := mkTable [stored anna 0; stored bert 1] 2.

(** 256 characters. *)
Definition long_local : string :=
  let x16 := "aaaaaaaaaaaaaaaa" in
  let x64 := x16 ++ x16 ++ x16 ++ x16 in
  x64 ++ x64 ++ x64 ++ x64.

(** A handle whose look-ups find nothing and whose writes throw the value
    [thrown]. *)
Definition refusing (thrown : Thrown) : Knex unit :=
  {| first_where_id := fun _ => ret None;
     first_where_email := fun _ => ret None;
     insert := fun _ => throw thrown;
     update_where_id := fun _ _ => throw thrown |}.

(** ** database/migrations

    The migrations act on the schema of the database through the schema
    builder; only the table [users] and the installed extensions are touched,
    so the schema is what is known of those two. *)

Inductive ColumnType : Type :=
| uuid_type
| string_type
| timestamp_type.

Record Column : Type := mkColumn {
  col_name : string;
  col_type : ColumnType;
  col_primaryKey : bool;
  col_notNullable : bool;
  col_unique : bool;
  col_defaultTo : option string
}.

Record Schema : Type := mkSchema {
  users : option (list Column);
  extensions : list string
}.

Definition named (n : string) (c : Column) : bool := String.eqb (col_name c) n.

(** [knex.raw('CREATE EXTENSION IF NOT EXISTS <ext>')] *)
Definition create_extension_if_not_exists (ext : string)
  : Async Schema unit :=
  fun s =>
    if existsb (String.eqb ext) (extensions s)
    then (Fulfilled tt, s)
    else (Fulfilled tt, mkSchema (users s) (extensions s ++ [ext])%list).

(** [knex.schema.createTable('users', ...)]: refused when the table is
    there. *)
Definition createTable_users (columns : list Column) : Async Schema unit :=
  fun s =>
    match users s with
    | Some _ =>
        (Rejected
           (IsError (mkJsError "relation users already exists"
                               (Some "42P07") None)), s)
    | None => (Fulfilled tt, mkSchema (Some columns) (extensions s))
    end.

(** [knex.schema.dropTable('users')]: refused when the table is not
    there. *)
Definition dropTable_users : Async Schema unit :=
  fun s =>
    match users s with
    | Some _ => (Fulfilled tt, mkSchema None (extensions s))
    | None =>
        (Rejected
           (IsError (mkJsError "table users does not exist"
                               (Some "42P01") None)), s)
    end.

Definition renamed (from to : string) (c : Column) : Column :=
  if named from c
  then mkColumn to (col_type c) (col_primaryKey c) (col_notNullable c)
                (col_unique c) (col_defaultTo c)
  else c.

(** [knex.schema.table('users', (table) => table.renameColumn(from, to))]:
    refused when the table or the column [from] is not there, or when a
    column [to] is. *)
Definition table_users_renameColumn (from to : string) : Async Schema unit :=
  fun s =>
    match users s with
    | None =>
        (Rejected
           (IsError (mkJsError "relation users does not exist"
                               (Some "42P01") None)), s)
    | Some columns =>
        if negb (existsb (named from) columns)
        then (Rejected
                (IsError (mkJsError ("column " ++ from ++ " does not exist")
                                    (Some "42703") None)), s)
        else if existsb (named to) columns
        then (Rejected
                (IsError (mkJsError ("column " ++ to ++ " already exists")
                                    (Some "42701") None)), s)
        else (Fulfilled tt,
              mkSchema (Some (map (renamed from to) columns)) (extensions s))
    end.

(** The migration that creates [users]. *)
Module CreateUsers.

(** [table.uuid('id', { primaryKey: true }).defaultTo(knex.raw('uuid_generate_v4()'))],
    [table.string('email').notNullable().unique()],
    [table.string('password').notNullable()],
    [table.timestamps(true, true)] *)
Definition columns : list Column :=
  [ mkColumn "id" uuid_type true false false (Some "uuid_generate_v4()");
    mkColumn "email" string_type false true true None;
    mkColumn "password" string_type false true false None;
    mkColumn "created_at" timestamp_type false true false
             (Some "CURRENT_TIMESTAMP");
    mkColumn "updated_at" timestamp_type false true false
             (Some "CURRENT_TIMESTAMP") ].

Definition up : Async Schema unit :=
  create_extension_if_not_exists "uuid-ossp" ;;
  createTable_users columns.

Definition down : Async Schema unit :=
  dropTable_users.

End CreateUsers.

(** [20251211001655_change-password-column-name.ts] *)
Module ChangePasswordColumnName.

Definition up : Async Schema unit :=
  table_users_renameColumn "password" "passwordHash".

Definition down : Async Schema unit :=
  table_users_renameColumn "passwordHash" "password".

End ChangePasswordColumnName.

Definition column_names (s : Schema) : list string :=
  match users s with
  | Some columns => map col_name columns
  | None => []
  end.

(** * Properties *)

Unset Implicit Arguments.

(** ** Looking rows up by a key *)

Section Lookup.
Variable key : Row -> string.

Lemma find_absent (k : string) (l : list Row) :
  (forall r, In r l -> key r <> k) -> find (hasKey key k) l = None.
Proof.
  induction l as [|x l IH]; intros H; simpl; [reflexivity|].
  unfold hasKey at 1.
  destruct (String.eqb_spec (key x) k) as [E|_].
  - exfalso. apply (H x); [left; reflexivity | exact E].
  - apply IH. intros r Hr. apply H. right. exact Hr.
Qed.

Lemma exists_absent (k : string) (l : list Row) :
  (forall r, In r l -> key r <> k) -> existsb (hasKey key k) l = false.
Proof.
  induction l as [|x l IH]; intros H; simpl; [reflexivity|].
  unfold hasKey at 1.
  destruct (String.eqb_spec (key x) k) as [E|_].
  - exfalso. apply (H x); [left; reflexivity | exact E].
  - apply IH. intros r Hr. apply H. right. exact Hr.
Qed.

Lemma exists_present (k : string) (l : list Row) (r : Row) :
  In r l -> key r = k -> existsb (hasKey key k) l = true.
Proof.
  intros Hin Hk. apply existsb_exists. exists r. split; [exact Hin|].
  unfold hasKey. apply String.eqb_eq. exact Hk.
Qed.

Lemma absent_of_exists (k : string) (l : list Row) :
  existsb (hasKey key k) l = false -> forall r, In r l -> key r <> k.
Proof.
  intros H r Hr E.
  rewrite (exists_present k l r Hr E) in H. discriminate.
Qed.


Lemma count_absent (k : string) (l : list Row) :
  (forall r, In r l -> key r <> k) -> length (filter (hasKey key k) l) = 0.
Proof.
  induction l as [|x l IH]; intros H; simpl; [reflexivity|].
  unfold hasKey at 1.
  destruct (String.eqb_spec (key x) k) as [E|_].
  - exfalso. apply (H x); [left; reflexivity | exact E].
  - apply IH. intros r Hr. apply H. right. exact Hr.
Qed.

Lemma count_unique (l : list Row) (r : Row) :
  NoDup (map key l) -> In r l -> length (filter (hasKey key (key r)) l) = 1.
Proof.
  induction l as [|x l IH]; intros Hnd Hin; [destruct Hin|].
  simpl in Hnd. inversion Hnd as [|? ? Hx Hl]; subst.
  simpl. unfold hasKey at 1.
  destruct Hin as [->|Hin].
  - rewrite String.eqb_refl. simpl. f_equal.
    apply count_absent. intros y Hy E. apply Hx. rewrite <- E.
    apply in_map. exact Hy.
  - destruct (String.eqb_spec (key x) (key r)) as [E|_].
    + exfalso. apply Hx. rewrite E. apply in_map. exact Hin.
    + apply IH; assumption.
Qed.
End Lookup.

(** ** Running the repository, one query at a time *)

Section Stepping.
Context {S : Type} (db : Knex S).

Lemma findById_run (i : string) (s : S) :
  findById db i s =
  match first_where_id db i s with
  | (Fulfilled (Some row), s') => (Fulfilled (Some (tableRowToUser row)), s')
  | (Fulfilled None, s') => (Fulfilled None, s')
  | (Rejected e, s') => (Rejected e, s')
  end.
Proof.
  unfold findById, bind, ret.
  destruct (first_where_id db i s) as [[[row|]|e] s']; reflexivity.
Qed.

Lemma findByEmail_run (a : string) (s : S) :
  findByEmail db a s =
  match first_where_email db a s with
  | (Fulfilled (Some row), s') => (Fulfilled (Some (tableRowToUser row)), s')
  | (Fulfilled None, s') => (Fulfilled None, s')
  | (Rejected e, s') => (Rejected e, s')
  end.
Proof.
  unfold findByEmail, bind, ret.
  destruct (first_where_email db a s) as [[[row|]|e] s']; reflexivity.
Qed.

(** [saveUser] when the look-up itself fails. *)
Lemma saveUser_lookup_fails (u : User) (s s1 : S) (e : Thrown) :
  first_where_id db (id u) s = (Rejected e, s1) ->
  saveUser db u s = (Rejected e, s1).
Proof.
  intros H. unfold saveUser, bind. rewrite findById_run, H. reflexivity.
Qed.

(** [saveUser] on the update branch. *)
Lemma saveUser_existing (u : User) (s s1 : S) (row : Row) :
  first_where_id db (id u) s = (Fulfilled (Some row), s1) ->
  saveUser db u s =
  match update_where_id db (id u) (userToTableRow u) s1 with
  | (Fulfilled _, s2) => (Fulfilled tt, s2)
  | (Rejected e, s2) => (Rejected e, s2)
  end.
Proof.
  intros H. unfold saveUser, bind at 1. rewrite findById_run, H.
  unfold bind, ret.
  destruct (update_where_id db (id u) (userToTableRow u) s1) as [[[]|e] s2];
    reflexivity.
Qed.

(** [saveUser] on the insert branch. *)
Lemma saveUser_absent (u : User) (s s1 : S) :
  first_where_id db (id u) s = (Fulfilled None, s1) ->
  saveUser db u s =
  match insert db (userToTableRow u) s1 with
  | (Fulfilled _, s2) => (Fulfilled tt, s2)
  | (Rejected err, s2) =>
      (Rejected (if isDuplicateKey err then DuplicateEmail else err), s2)
  end.
Proof.
  intros H. unfold saveUser, bind at 1. rewrite findById_run, H.
  unfold bind, try_catch, ret, throw.
  destruct (insert db (userToTableRow u) s1) as [[[]|e] s2];
    [reflexivity|].
  destruct (isDuplicateKey e); reflexivity.
Qed.
End Stepping.

Lemma userToTableRow_id (u : User) : userToTableRow u = u.
Proof. destruct u; reflexivity. Qed.

(** ** The table under [saveUser] *)

Lemma existsb_nowhere {A : Type} (f : A -> bool) (l : list A) :
  (forall x, In x l -> f x = false) -> existsb f l = false.
Proof.
  induction l as [|x l IH]; intros H; simpl; [reflexivity|].
  rewrite (H x (or_introl eq_refl)). apply IH.
  intros y Hy. apply H. right. exact Hy.
Qed.

Lemma find_after (f : Row -> bool) (l : list Row) (x : Row) :
  find f l = None -> find f (l ++ [x])%list = find f [x].
Proof.
  induction l as [|y l IH]; intros H; [reflexivity|].
  simpl in *. destruct (f y); [discriminate | apply IH; exact H].
Qed.

Lemma hasId_replaced (u : User) (r : Row) :
  hasId (id u) (replaced (id u) u r) = hasId (id u) r.
Proof.
  unfold replaced. destruct (hasId (id u) r) eqn:E; [|exact E].
  unfold hasId, hasKey, overwrite. simpl. apply String.eqb_refl.
Qed.

Lemma find_replaced (u : User) (l : list Row) :
  find (hasId (id u)) (map (replaced (id u) u) l) =
  option_map (replaced (id u) u) (find (hasId (id u)) l).
Proof.
  induction l as [|x l IH]; [reflexivity|].
  simpl. rewrite hasId_replaced.
  destruct (hasId (id u) x); [reflexivity | exact IH].
Qed.

Lemma count_replaced (u : User) (l : list Row) :
  length (filter (hasId (id u)) (map (replaced (id u) u) l)) =
  length (filter (hasId (id u)) l).
Proof.
  induction l as [|x l IH]; [reflexivity|].
  simpl. rewrite hasId_replaced.
  destruct (hasId (id u) x); simpl; rewrite IH; reflexivity.
Qed.

Section SaveOnTable.
Variable driver : Driver.
Lemma findById_table (i : string) (t : Table) :
  findById (usersTable driver) i t =
  (Fulfilled (option_map tableRowToUser (find (hasId i) (rows t))), t).
Proof.
  rewrite findById_run. simpl. unfold table_first_where_id.
  destruct (find (hasId i) (rows t)); reflexivity.
Qed.

Lemma findByEmail_table (a : string) (t : Table) :
  findByEmail (usersTable driver) a t =
  (Fulfilled (option_map tableRowToUser (find (hasEmail a) (rows t))), t).
Proof.
  rewrite findByEmail_run. simpl. unfold table_first_where_email.
  destruct (find (hasEmail a) (rows t)); reflexivity.
Qed.

(** Insert branch, nothing in the way. *)
Lemma saveUser_inserts (u : User) (t : Table) :
  (forall r, In r (rows t) -> row_id r <> id u) ->
  (forall r, In r (rows t) -> row_email r <> email u) ->
  saveUser (usersTable driver) u t =
  (Fulfilled tt, mkTable (rows t ++ [stored u (now t)])%list (S (now t))).
Proof.
  intros Hid Hem.
  rewrite (saveUser_absent (usersTable driver) u t t).
  - simpl. unfold table_insert. rewrite userToTableRow_id.
    unfold hasId, hasEmail.
    rewrite (exists_absent row_id _ _ Hid), (exists_absent row_email _ _ Hem).
    reflexivity.
  - simpl. unfold table_first_where_id, hasId.
    rewrite (find_absent row_id _ _ Hid). reflexivity.
Qed.

(** Insert branch, email held by some row. *)
Lemma saveUser_insert_refused (u : User) (t : Table) (r : Row) :
  (forall x, In x (rows t) -> row_id x <> id u) ->
  In r (rows t) -> row_email r = email u ->
  saveUser (usersTable driver) u t =
  (Rejected
     (if isDuplicateKey
           (uniqueViolation (insertSql driver) "users_email_unique")
      then DuplicateEmail
      else uniqueViolation (insertSql driver) "users_email_unique"), t).
Proof.
  intros Hid Hin Hem.
  rewrite (saveUser_absent (usersTable driver) u t t).
  - simpl. unfold table_insert. rewrite userToTableRow_id.
    unfold hasId, hasEmail.
    rewrite (exists_absent row_id _ _ Hid).
    rewrite (exists_present row_email _ _ r Hin Hem).
    reflexivity.
  - simpl. unfold table_first_where_id, hasId.
    rewrite (find_absent row_id _ _ Hid). reflexivity.
Qed.

Lemma lookup_hits (i : string) (t : Table) (r : Row) :
  In r (rows t) -> row_id r = i ->
  exists row, table_first_where_id i t = (Fulfilled (Some row), t).
Proof.
  intros Hin Hid. unfold table_first_where_id.
  destruct (find (hasId i) (rows t)) as [row|] eqn:E.
  - exists row. reflexivity.
  - exfalso. apply (find_none _ _ E) in Hin.
    unfold hasId, hasKey in Hin. rewrite Hid, String.eqb_refl in Hin.
    discriminate.
Qed.

Lemma no_key_clash (i : string) (l : list Row) :
  existsb (fun r => negb (hasId i r) && hasId i r) l = false.
Proof.
  apply existsb_nowhere. intros x _. destruct (hasId i x); reflexivity.
Qed.

(** Update branch, email free among the other rows. *)
Lemma saveUser_updates (u : User) (t : Table) (r : Row) :
  In r (rows t) -> row_id r = id u ->
  (forall x, In x (rows t) -> row_id x <> id u -> row_email x <> email u) ->
  saveUser (usersTable driver) u t =
  (Fulfilled tt, mkTable (map (replaced (id u) u) (rows t)) (S (now t))).
Proof.
  intros Hin Hid Hfree.
  destruct (lookup_hits _ t r Hin Hid) as [row Hrow].
  rewrite (saveUser_existing (usersTable driver) u t t row Hrow).
  simpl. unfold table_update_where_id. rewrite userToTableRow_id.
  replace (existsb (hasId (id u)) (rows t)) with true.
  2:{ symmetry. unfold hasId. apply (exists_present row_id _ _ r Hin Hid). }
  simpl. rewrite no_key_clash.
  rewrite existsb_nowhere; [reflexivity|].
  intros x Hx. unfold hasId, hasEmail, hasKey.
  destruct (String.eqb_spec (row_id x) (id u)) as [|Hne]; [reflexivity|].
  simpl. apply String.eqb_neq. apply Hfree; assumption.
Qed.

(** Update branch, email held by another row. *)
Lemma saveUser_update_refused (u : User) (t : Table) (r other : Row) :
  In r (rows t) -> row_id r = id u ->
  In other (rows t) -> row_id other <> id u -> row_email other = email u ->
  saveUser (usersTable driver) u t =
  (Rejected (uniqueViolation (updateSql driver) "users_email_unique"), t).
Proof.
  intros Hin Hid Hother Hne Hem.
  destruct (lookup_hits _ t r Hin Hid) as [row Hrow].
  rewrite (saveUser_existing (usersTable driver) u t t row Hrow).
  simpl. unfold table_update_where_id. rewrite userToTableRow_id.
  replace (existsb (hasId (id u)) (rows t)) with true.
  2:{ symmetry. unfold hasId. apply (exists_present row_id _ _ r Hin Hid). }
  simpl. rewrite no_key_clash.
  replace (existsb (fun x => negb (hasId (id u) x) && hasEmail (email u) x)
                   (rows t)) with true; [reflexivity|].
  symmetry. apply existsb_exists. exists other. split; [exact Hother|].
  unfold hasId, hasEmail, hasKey.
  apply String.eqb_neq in Hne. rewrite Hne. simpl.
  apply String.eqb_eq. exact Hem.
Qed.

(** After either successful write the row is found, and it reads back as
    the user that was saved. *)
Lemma reads_back_inserted (u : User) (t : Table) :
  (forall r, In r (rows t) -> row_id r <> id u) ->
  findById (usersTable driver) (id u)
    (mkTable (rows t ++ [stored u (now t)])%list (S (now t))) =
  (Fulfilled (Some u),
   mkTable (rows t ++ [stored u (now t)])%list (S (now t))).
Proof.
  intros Hid. rewrite findById_table. simpl.
  rewrite find_after.
  - simpl. unfold hasId, hasKey. simpl. rewrite String.eqb_refl.
    destruct u; reflexivity.
  - unfold hasId. apply (find_absent row_id _ _ Hid).
Qed.

Lemma reads_back_updated (u : User) (t : Table) (r : Row) :
  In r (rows t) -> row_id r = id u ->
  findById (usersTable driver) (id u)
    (mkTable (map (replaced (id u) u) (rows t)) (S (now t))) =
  (Fulfilled (Some u),
   mkTable (map (replaced (id u) u) (rows t)) (S (now t))).
Proof.
  intros Hin Hid. rewrite findById_table. simpl.
  rewrite find_replaced.
  destruct (find (hasId (id u)) (rows t)) as [row|] eqn:E.
  - simpl. apply find_some in E. destruct E as [_ E].
    unfold replaced. rewrite E. destruct u; reflexivity.
  - exfalso. apply (find_none _ _ E) in Hin.
    unfold hasId, hasKey in Hin. rewrite Hid, String.eqb_refl in Hin.
    discriminate.
Qed.
End SaveOnTable.

(** ** The constraints of the schema are kept *)

Lemma replaced_ids (u : User) (l : list Row) :
  map row_id (map (replaced (id u) u) l) = map row_id l.
Proof.
  induction l as [|x l IH]; [reflexivity|].
  simpl. rewrite IH. f_equal.
  unfold replaced. destruct (hasId (id u) x) eqn:E; [|reflexivity].
  unfold hasId, hasKey in E. apply String.eqb_eq in E.
  simpl. symmetry. exact E.
Qed.

Lemma replaced_elsewhere (u : User) (l : list Row) :
  (forall x, In x l -> row_id x <> id u) ->
  map (replaced (id u) u) l = l.
Proof.
  induction l as [|x l IH]; intros Hno; [reflexivity|].
  simpl. rewrite IH by (intros y Hy; apply Hno; right; exact Hy).
  f_equal. unfold replaced, hasId, hasKey.
  destruct (String.eqb_spec (row_id x) (id u)) as [E|_]; [|reflexivity].
  exfalso. apply (Hno x (or_introl eq_refl) E).
Qed.

Lemma replaced_emails (u : User) (l : list Row) :
  NoDup (map row_id l) -> NoDup (map row_email l) ->
  (forall x, In x l -> row_id x <> id u -> row_email x <> email u) ->
  NoDup (map row_email (map (replaced (id u) u) l)).
Proof.
  induction l as [|x l IH]; intros Hids Hemails Hfree; [constructor|].
  simpl in Hids, Hemails.
  inversion Hids as [|? ? Hxid Hids']; subst.
  inversion Hemails as [|? ? Hxem Hemails']; subst.
  assert (Hfree' : forall y, In y l -> row_id y <> id u ->
                             row_email y <> email u).
  { intros y Hy. apply Hfree. right. exact Hy. }
  simpl. unfold replaced at 1, hasId, hasKey.
  destruct (String.eqb_spec (row_id x) (id u)) as [E|Hne].
  - assert (Hno : forall y, In y l -> row_id y <> id u).
    { intros y Hy Ey. apply Hxid. rewrite E, <- Ey. apply in_map. exact Hy. }
    rewrite (replaced_elsewhere u l Hno). simpl.
    constructor; [|exact Hemails'].
    intros Hin. apply in_map_iff in Hin. destruct Hin as [y [Ey Hy]].
    apply (Hfree' y Hy (Hno y Hy) Ey).
  - constructor; [|apply IH; assumption].
    intros Hin. apply in_map_iff in Hin. destruct Hin as [y' [Ey' Hy']].
    apply in_map_iff in Hy'. destruct Hy' as [y [<- Hy]].
    unfold replaced in Ey'. destruct (hasId (id u) y).
    + simpl in Ey'. apply (Hfree x (or_introl eq_refl) Hne). symmetry.
      exact Ey'.
    + apply Hxem. rewrite <- Ey'. apply in_map. exact Hy.
Qed.

Lemma appended_keys (key : Row -> string) (l : list Row) (x : Row) :
  NoDup (map key l) -> (forall r, In r l -> key r <> key x) ->
  NoDup (map key (l ++ [x])%list).
Proof.
  induction l as [|y l IH]; intros Hnd Hno; simpl.
  - constructor; [intros [] | constructor].
  - inversion Hnd as [|? ? Hy Hl]; subst.
    constructor.
    + rewrite map_app, in_app_iff. intros [Hin|[E|[]]].
      * exact (Hy Hin).
      * apply (Hno y (or_introl eq_refl)). symmetry. exact E.
    + apply IH; [exact Hl|]. intros r Hr. apply Hno. right. exact Hr.
Qed.

(** Whatever [saveUser] does to the table, ids stay distinct and emails stay
    distinct. *)
Lemma saveUser_keeps_keys (driver : Driver) (u : User) (t : Table) :
  keys_ok t -> keys_ok (snd (saveUser (usersTable driver) u t)).
Proof.
  intros [Hids Hemails].
  destruct (existsb (hasId (id u)) (rows t)) eqn:E.
  - apply existsb_exists in E. destruct E as [r [Hin Hid]].
    unfold hasId, hasKey in Hid. apply String.eqb_eq in Hid.
    destruct (existsb (fun x => negb (hasId (id u) x) && hasEmail (email u) x)
                      (rows t)) eqn:C.
    + apply existsb_exists in C. destruct C as [other [Hother Hc]].
      apply andb_true_iff in Hc. destruct Hc as [Hne Hem].
      unfold hasId, hasEmail, hasKey in Hne, Hem.
      apply negb_true_iff, String.eqb_neq in Hne.
      apply String.eqb_eq in Hem.
      rewrite (saveUser_update_refused driver u t r other Hin Hid Hother
                 Hne Hem).
      split; assumption.
    + assert (Hfree : forall x, In x (rows t) -> row_id x <> id u ->
                                row_email x <> email u).
      { intros x Hx Hne Hem.
        assert (F : negb (hasId (id u) x) && hasEmail (email u) x = true).
        { unfold hasId, hasEmail, hasKey.
          apply String.eqb_neq in Hne. apply String.eqb_eq in Hem.
          rewrite Hne, Hem. reflexivity. }
        assert (T : existsb (fun x =>
                      negb (hasId (id u) x) && hasEmail (email u) x)
                      (rows t) = true).
        { apply existsb_exists. exists x. split; assumption. }
        rewrite C in T. discriminate. }
      rewrite (saveUser_updates driver u t r Hin Hid Hfree).
      split; simpl.
      * rewrite replaced_ids. exact Hids.
      * apply replaced_emails; assumption.
  - pose proof (absent_of_exists row_id (id u) (rows t) E) as Hno.
    destruct (existsb (hasEmail (email u)) (rows t)) eqn:C.
    + apply existsb_exists in C. destruct C as [r [Hin Hem]].
      unfold hasEmail, hasKey in Hem. apply String.eqb_eq in Hem.
      rewrite (saveUser_insert_refused driver u t r Hno Hin Hem).
      split; assumption.
    + pose proof (absent_of_exists row_email (email u) (rows t) C) as Hfree.
      rewrite (saveUser_inserts driver u t Hno Hfree).
      split; simpl; apply appended_keys; assumption.
Qed.

(** ** What reaches the store *)

Lemma written_app (l l' : list Call) :
  written (l ++ l') = (written l ++ written l')%list.
Proof.
  induction l as [|c l IH]; [reflexivity|].
  destruct c; simpl; rewrite IH; reflexivity.
Qed.

Ltac run_traced :=
  unfold createUser, saveUser, findById, findByEmail, bind, try_catch, ret,
    throw, settle, logged;
  simpl; unfold logged; simpl.

Ltac split_query :=
  match goal with
  | |- context [first_where_id ?db ?i ?s] =>
      destruct (first_where_id db i s) as [[[?|]|?] ?]; simpl
  | |- context [insert ?db ?p ?s] =>
      destruct (insert db p s) as [[[]|?] ?]; simpl
  | |- context [update_where_id ?db ?i ?p ?s] =>
      destruct (update_where_id db i p s) as [[[]|?] ?]; simpl
  | |- context [if isDuplicateKey ?e then _ else _] =>
      destruct (isDuplicateKey e); simpl
  end.

Ltac name_writes :=
  repeat rewrite written_app; simpl; repeat rewrite app_nil_r;
  match goal with
  | |- exists ws, (?l ++ ?w)%list = (?l ++ ws)%list /\ _ =>
      exists w; split; [reflexivity|]
  | |- exists ws, ?l = (?l ++ ws)%list /\ _ =>
      exists []; split; [symmetry; apply app_nil_r|]
  end.

(** Every write [saveUser] issues carries the user it was given, field for
    field. *)
Lemma saveUser_written {S : Type} (db : Knex S) (u : User) (s : S)
    (l : list Call) :
  exists ws,
    written (snd (snd (saveUser (traced db) u (s, l)))) =
      (written l ++ ws)%list /\
    Forall (fun p => p = userToTableRow u) ws.
Proof.
  run_traced. repeat split_query; name_writes;
    repeat constructor.
Qed.

(** C10. Converting a user to a table row and back gives the same user;
    a row read from the table is cut down to its [id], [email] and
    [passwordHash], whatever other columns it has; this is the only way
    [findById] and [findByEmail] build the value they return, and every row
    [saveUser] sends to the store is [userToTableRow] of its argument, with
    those three fields only. *)
Theorem tableRowToUser_userToTableRow :
  (forall u : User, tableRowToUser (asRow (userToTableRow u)) = u) /\
  (forall r : Row,
     tableRowToUser r = mkUser (row_id r) (row_email r) (row_passwordHash r) /\
     fields (asRow (tableRowToUser r)) = ["id"; "email"; "passwordHash"]) /\
  (forall (S : Type) (db : Knex S) (i : string) (s : S),
     findById db i s =
     match first_where_id db i s with
     | (Fulfilled (Some row), s') =>
         (Fulfilled (Some (tableRowToUser row)), s')
     | (Fulfilled None, s') => (Fulfilled None, s')
     | (Rejected e, s') => (Rejected e, s')
     end) /\
  (forall (S : Type) (db : Knex S) (a : string) (s : S),
     findByEmail db a s =
     match first_where_email db a s with
     | (Fulfilled (Some row), s') =>
         (Fulfilled (Some (tableRowToUser row)), s')
     | (Fulfilled None, s') => (Fulfilled None, s')
     | (Rejected e, s') => (Rejected e, s')
     end) /\
  (forall (S : Type) (db : Knex S) (u : User) (s : S) (l : list Call),
     exists ws,
       written (snd (snd (saveUser (traced db) u (s, l)))) =
         (written l ++ ws)%list /\
       Forall (fun p => p = userToTableRow u /\
                        fields (asRow p) = ["id"; "email"; "passwordHash"])
              ws).
Proof.
  split; [intros [i e h]; reflexivity|].
  split; [intros r; split; reflexivity|].
  split; [intros S db i s; apply findById_run|].
  split; [intros S db a s; apply findByEmail_run|].
  intros S db u s l.
  destruct (saveUser_written db u s l) as [ws [Hw Hall]].
  exists ws. split; [exact Hw|].
  eapply Forall_impl; [|exact Hall].
  intros p Hp. split; [exact Hp | reflexivity].
Qed.

(** ** Running [createUser] *)

Section CreateUserSteps.
Variable hashPassword : nat -> string -> Settled string.
Context {S : Type} (db : Knex S).

Lemma createUser_hash_fails (params : CreateUserParams) (rnd : Entropy)
    (s : S) (e : Thrown) :
  hashPassword (salt rnd) (password params) = Rejected e ->
  createUser hashPassword db params rnd s = (Rejected e, s).
Proof.
  intros H. unfold createUser, bind at 1, settle. rewrite H. reflexivity.
Qed.

Lemma createUser_run (params : CreateUserParams) (rnd : Entropy)
    (s : S) (h : string) :
  hashPassword (salt rnd) (password params) = Fulfilled h ->
  createUser hashPassword db params rnd s =
  match saveUser db (createUserIntent params rnd h) s with
  | (Fulfilled _, s1) =>
      match findById db (uuid rnd) s1 with
      | (Fulfilled (Some c), s2) => (Fulfilled c, s2)
      | (Fulfilled None, s2) => (Rejected CreationVerificationFailed, s2)
      | (Rejected e, s2) => (Rejected e, s2)
      end
  | (Rejected e, s1) => (Rejected e, s1)
  end.
Proof.
  intros H. unfold createUser, bind at 1, settle. rewrite H.
  cbv zeta. unfold bind at 1.
  destruct (saveUser db (createUserIntent params rnd h) s) as [[[]|e] s1];
    [|reflexivity].
  unfold bind, ret, throw. simpl.
  destruct (findById db (uuid rnd) s1) as [[[c|]|e] s2]; reflexivity.
Qed.
End CreateUserSteps.

(** C6. Once [saveUser] has succeeded, [createUser] reads the record back
    with [findById] on the generated id; when that read gives [null] it
    fails with "Failed to create user", and otherwise it returns the user
    that was read, whatever the record it had built itself. *)
Theorem createUser_returns_reread
    (hashPassword : nat -> string -> Settled string)
    (S : Type) (db : Knex S) (params : CreateUserParams) (rnd : Entropy)
    (s s1 s2 : S) (h : string) (reread : option User) :
  hashPassword (salt rnd) (password params) = Fulfilled h ->
  saveUser db (createUserIntent params rnd h) s = (Fulfilled tt, s1) ->
  findById db (uuid rnd) s1 = (Fulfilled reread, s2) ->
  createUser hashPassword db params rnd s =
  (match reread with
   | None => Rejected CreationVerificationFailed
   | Some created => Fulfilled created
   end, s2).
Proof.
  intros Hh Hsave Hread.
  rewrite (createUser_run hashPassword db params rnd s h Hh), Hsave, Hread.
  destruct reread; reflexivity.
Qed.

(** C7. A rejection of the hasher, or of [saveUser] (the duplicate-email
    error included), is the rejection of [createUser], the same thrown
    value; the handle is left in the state the failing step left it in, so
    its list of queries shows nothing issued after the failure: no
    retry, no second [saveUser], no [findById]. *)
Theorem createUser_propagates
    (hashPassword : nat -> string -> Settled string)
    (S : Type) (db : Knex S) (params : CreateUserParams) (rnd : Entropy)
    (st : S * list Call) (e : Thrown) :
  (hashPassword (salt rnd) (password params) = Rejected e ->
   createUser hashPassword (traced db) params rnd st = (Rejected e, st)) /\
  (forall (h : string) (st' : S * list Call),
     hashPassword (salt rnd) (password params) = Fulfilled h ->
     saveUser (traced db) (createUserIntent params rnd h) st
       = (Rejected e, st') ->
     createUser hashPassword (traced db) params rnd st = (Rejected e, st')).
Proof.
  split.
  - apply createUser_hash_fails.
  - intros h st' Hh Hsave.
    rewrite (createUser_run hashPassword (traced db) params rnd st h Hh).
    rewrite Hsave. reflexivity.
Qed.

(** C4. The only rows [createUser] sends to the store have the generated
    id, the submitted email and, as [passwordHash], the value the hasher
    returned for the submitted password; when the hasher fails nothing is
    written.  [saveUser] writes the fields of the user it is handed and
    nothing else.  Two calls whose passwords hash to the same value are
    indistinguishable: the password reaches the store through the hasher
    only. *)
Theorem createUser_writes_hashed
    (hashPassword : nat -> string -> Settled string)
    (S : Type) (db : Knex S) (params : CreateUserParams) (rnd : Entropy)
    (s : S) (l : list Call) :
  (exists ws,
     written
       (snd (snd (createUser hashPassword (traced db) params rnd (s, l)))) =
       (written l ++ ws)%list /\
     Forall (fun p =>
               exists h,
                 hashPassword (salt rnd) (password params) = Fulfilled h /\
                 p = mkUser (uuid rnd) (params_email params) h) ws) /\
  (forall u : User,
     exists ws,
       written (snd (snd (saveUser (traced db) u (s, l)))) =
         (written l ++ ws)%list /\
       Forall (fun p => p = u) ws) /\
  (forall (params' : CreateUserParams) (rnd' : Entropy),
     params_email params' = params_email params ->
     uuid rnd' = uuid rnd ->
     hashPassword (salt rnd') (password params') =
       hashPassword (salt rnd) (password params) ->
     createUser hashPassword (traced db) params' rnd' (s, l) =
     createUser hashPassword (traced db) params rnd (s, l)).
Proof.
  split; [|split].
  - destruct (hashPassword (salt rnd) (password params)) as [h|e] eqn:Hh.
    + rewrite (createUser_run hashPassword (traced db) params rnd (s, l) h Hh).
      destruct (saveUser_written db (createUserIntent params rnd h) s l)
        as [ws [Hw Hall]].
      exists ws. split.
      * destruct (saveUser (traced db) (createUserIntent params rnd h) (s, l))
          as [[[]|e] [s1 l1]]; [|exact Hw].
        simpl in Hw. rewrite findById_run. simpl. unfold logged. simpl.
        destruct (first_where_id db (uuid rnd) s1) as [[[row|]|e] s2]; simpl;
          rewrite written_app, Hw; simpl; apply app_nil_r.
      * eapply Forall_impl; [|exact Hall].
        intros p Hp. exists h. split; [reflexivity|].
        rewrite Hp, userToTableRow_id. reflexivity.
    + rewrite (createUser_hash_fails hashPassword (traced db) params rnd
                 (s, l) e Hh).
      exists []. split; [symmetry; apply app_nil_r | constructor].
  - intros u. destruct (saveUser_written db u s l) as [ws [Hw Hall]].
    exists ws. split; [exact Hw|].
    eapply Forall_impl; [|exact Hall].
    intros p Hp. rewrite Hp. apply userToTableRow_id.
  - intros params' rnd' Hemail Huuid Hhash.
    unfold createUser, createUserIntent.
    rewrite Hemail, Huuid, Hhash. reflexivity.
Qed.

Lemma createUser_returns_reread_witness :
  createUser toyHash (shared (usersTable threeColumns)) signup
    (mkEntropy "u1" 3) (empty, [idle; idle; remove_id "u1"]) =
    (Rejected CreationVerificationFailed, (mkTable [] 1, [])) /\
  createUser toyHash (shared (usersTable threeColumns)) signup
    (mkEntropy "u1" 3) (empty, [idle; idle; rewrite_email "u1" "z@x.com"]) =
    (Fulfilled (mkUser "u1" "z@x.com" "$argon2id$3$M"),
     (rewrite_email "u1" "z@x.com"
        (mkTable [stored (mkUser "u1" "a@x.com" "$argon2id$3$M") 0] 1), [])).
Proof.
  split.
  - apply (createUser_returns_reread toyHash _
             (shared (usersTable threeColumns)) signup (mkEntropy "u1" 3)
             (empty, [idle; idle; remove_id "u1"])
             (mkTable [stored (mkUser "u1" "a@x.com" "$argon2id$3$M") 0] 1,
              [remove_id "u1"])
             (mkTable [] 1, [])
             "$argon2id$3$M" None); reflexivity.
  - apply (createUser_returns_reread toyHash _
             (shared (usersTable threeColumns)) signup (mkEntropy "u1" 3)
             (empty, [idle; idle; rewrite_email "u1" "z@x.com"])
             (mkTable [stored (mkUser "u1" "a@x.com" "$argon2id$3$M") 0] 1,
              [rewrite_email "u1" "z@x.com"])
             (rewrite_email "u1" "z@x.com"
                (mkTable [stored (mkUser "u1" "a@x.com" "$argon2id$3$M") 0] 1),
              [])
             "$argon2id$3$M"
             (Some (mkUser "u1" "z@x.com" "$argon2id$3$M"))); reflexivity.
Defined.

Lemma createUser_propagates_witness :
  createUser exhausted (traced (usersTable threeColumns)) signup
    (mkEntropy "u1" 3) (two, []) =
    (Rejected (new_Error "memory allocation failed"), (two, [])) /\
  createUser toyHash (traced (usersTable fiveColumns)) signup
    (mkEntropy "u1" 3) (two, []) =
    (Rejected DuplicateEmail,
     (two, [FirstWhereId "u1";
            Insert (mkUser "u1" "a@x.com" "$argon2id$3$M")])).
Proof.
  split.
  - apply (proj1 (createUser_propagates exhausted Table
                    (usersTable threeColumns) signup (mkEntropy "u1" 3)
                    (two, []) (new_Error "memory allocation failed"))).
    reflexivity.
  - apply (proj2 (createUser_propagates toyHash Table
                    (usersTable fiveColumns) signup (mkEntropy "u1" 3)
                    (two, []) DuplicateEmail) "$argon2id$3$M");
      reflexivity.
Defined.

Lemma createUser_writes_hashed_witness :
  password signup_again <> password signup /\
  createUser toyHash (traced (usersTable threeColumns)) signup_again
    (mkEntropy "u1" 3) (empty, []) =
  createUser toyHash (traced (usersTable threeColumns)) signup
    (mkEntropy "u1" 3) (empty, []).
Proof.
  split; [discriminate|].
  apply (proj2 (proj2 (createUser_writes_hashed toyHash Table
                         (usersTable threeColumns) signup (mkEntropy "u1" 3)
                         empty [])));
    reflexivity.
Defined.

(** C9. For a user whose id is in the table and whose email is held by
    another row, the update is refused on the email constraint and
    [saveUser] rejects with that database error as it is, never with "Email
    already exists", whatever the message says; the table is left as it
    was. *)
Theorem saveUser_update_not_translated (driver : Driver) (t : Table)
    (u : User) (r other : Row) :
  In r (rows t) -> row_id r = id u ->
  In other (rows t) -> row_id other <> id u -> row_email other = email u ->
  saveUser (usersTable driver) u t =
    (Rejected (uniqueViolation (updateSql driver) "users_email_unique"), t) /\
  uniqueViolation (updateSql driver) "users_email_unique" <> DuplicateEmail.
Proof.
  intros Hin Hid Hother Hne Hem. split.
  - apply (saveUser_update_refused driver u t r other); assumption.
  - discriminate.
Qed.

Lemma saveUser_update_not_translated_witness :
  isDuplicateKey (uniqueViolation (updateSql echoing) "users_email_unique")
    = true /\
  saveUser (usersTable echoing) (mkUser "id-1" "b@x.com" "$argon2id$1$Z") two =
    (Rejected (uniqueViolation (updateSql echoing) "users_email_unique"),
     two) /\
  uniqueViolation (updateSql echoing) "users_email_unique" <> DuplicateEmail.
Proof.
  split; [reflexivity|].
  apply (saveUser_update_not_translated echoing two
           (mkUser "id-1" "b@x.com" "$argon2id$1$Z")
           (stored alice 0) (stored bob 1)).
  - left; reflexivity.
  - reflexivity.
  - right; left; reflexivity.
  - discriminate.
  - reflexivity.
Defined.

Lemma count_appended (i : string) (l : list Row) (x : Row) :
  length (filter (hasId i) (l ++ [x])%list) =
  length (filter (hasId i) l) + (if hasId i x then 1 else 0).
Proof.
  rewrite filter_app, length_app. simpl.
  destruct (hasId i x); reflexivity.
Qed.

(** On values the columns hold as they are: when no row with another id
    holds the user's email, [saveUser] succeeds, in place when the id is
    there and by one new row when it is not. *)
Lemma upsert_on_table (driver : Driver) (t : Table) (u : User) :
  (forall x, In x (rows t) -> row_id x <> id u -> row_email x <> email u) ->
  exists t',
    saveUser (usersTable driver) u t = (Fulfilled tt, t') /\
    findById (usersTable driver) (id u) t' = (Fulfilled (Some u), t') /\
    (forall r, In r (rows t) -> row_id r = id u ->
       rows t' = map (replaced (id u) u) (rows t) /\
       length (rows t') = length (rows t) /\
       count_by_id (id u) t' = count_by_id (id u) t) /\
    ((forall r, In r (rows t) -> row_id r <> id u) ->
       rows t' = (rows t ++ [stored u (now t)])%list /\
       count_by_id (id u) t' = 1).
Proof.
  intros Hfree.
  destruct (existsb (hasId (id u)) (rows t)) eqn:E.
  - apply existsb_exists in E. destruct E as [r [Hin Hid]].
    unfold hasId, hasKey in Hid. apply String.eqb_eq in Hid.
    exists (mkTable (map (replaced (id u) u) (rows t)) (S (now t))).
    split; [apply (saveUser_updates driver u t r); assumption|].
    split; [apply (reads_back_updated driver u t r); assumption|].
    split.
    + intros _ _ _. simpl. rewrite length_map.
      unfold count_by_id. simpl. rewrite count_replaced. auto.
    + intros Hno. exfalso. apply (Hno r Hin Hid).
  - pose proof (absent_of_exists row_id (id u) (rows t) E) as Hno.
    exists (mkTable (rows t ++ [stored u (now t)])%list (S (now t))).
    split.
    { apply saveUser_inserts; [exact Hno|].
      intros r Hr. apply Hfree; [exact Hr | apply Hno; exact Hr]. }
    split; [apply reads_back_inserted; exact Hno|].
    split.
    + intros r Hin Hid. exfalso. apply (Hno r Hin Hid).
    + intros _. split; [reflexivity|].
      unfold count_by_id. simpl. rewrite count_appended.
      unfold hasId at 1. rewrite (count_absent row_id _ _ Hno).
      unfold hasId, hasKey, stored. simpl. rewrite String.eqb_refl.
      reflexivity.
Qed.

(** With the email held by a row and a fresh id, [createUser] fails and
    leaves the table untouched; which error comes out depends on the message
    of the database error. *)
Lemma createUser_email_taken
    (hashPassword : nat -> string -> Settled string)
    (driver : Driver) (t : Table) (params : CreateUserParams) (rnd : Entropy)
    (h : string) (r : Row) :
  (forall x, In x (rows t) -> row_id x <> uuid rnd) ->
  In r (rows t) -> row_email r = params_email params ->
  hashPassword (salt rnd) (password params) = Fulfilled h ->
  createUser hashPassword (usersTable driver) params rnd t =
  (Rejected
     (if isDuplicateKey
           (uniqueViolation (insertSql driver) "users_email_unique")
      then DuplicateEmail
      else uniqueViolation (insertSql driver) "users_email_unique"), t).
Proof.
  intros Hid Hin Hem Hh.
  rewrite (createUser_run hashPassword (usersTable driver) params rnd t h Hh).
  rewrite (saveUser_insert_refused driver (createUserIntent params rnd h) t r
             Hid Hin Hem).
  reflexivity.
Qed.

(** C5. Two sign-ups with the same email, on a driver that quotes the
    three-column insert [saveUser] issues: the first succeeds; the second,
    with a fresh id, is refused on the email constraint and leaves the table
    as it was, with its single row for that email, but what comes out is
    the database error, not "Email already exists". *)
Theorem createUser_twice_same_email :
  let db := usersTable threeColumns in
  let once := createUser toyHash db signup (mkEntropy "u1" 3) empty in
  let twice := createUser toyHash db signup_again (mkEntropy "u2" 4)
                 (snd once) in
  fst once = Fulfilled (mkUser "u1" "a@x.com" "$argon2id$3$M") /\
  fst twice =
    Rejected (uniqueViolation (insertSql threeColumns) "users_email_unique") /\
  fst twice <> Rejected DuplicateEmail /\
  isDuplicateKey (uniqueViolation (insertSql threeColumns) "users_email_unique")
    = false /\
  snd twice = snd once /\
  count_by_email "a@x.com" (snd twice) = 1.
Proof.
  cbv zeta. repeat split; try reflexivity. discriminate.
Qed.

(** * Further properties of the repository and of the service *)

(** ** The queries issued *)

(** X1. [saveUser] always starts with the look-up by id and then issues
    at most one write: the update when the look-up found a row, the insert
    when it found none, nothing when the look-up itself failed.  It never
    looks a user up by email.  Keeping the list of queries changes neither
    the outcome nor the state of the handle. *)
Theorem saveUser_queries (S : Type) (db : Knex S) (u : User) (s : S)
    (l : list Call) :
  saveUser (traced db) u (s, l) =
  (fst (saveUser db u s),
   (snd (saveUser db u s),
    (l ++ match fst (first_where_id db (id u) s) with
          | Fulfilled (Some _) =>
              [FirstWhereId (id u); UpdateWhereId (id u) (userToTableRow u)]
          | Fulfilled None =>
              [FirstWhereId (id u); Insert (userToTableRow u)]
          | Rejected _ => [FirstWhereId (id u)]
          end)%list)).
Proof.
  run_traced. repeat split_query;
    repeat rewrite <- app_assoc; reflexivity.
Qed.

(** X2. [createUser] issues no query when the hasher fails; otherwise it
    issues the queries of [saveUser] on the record it built and, only when
    [saveUser] succeeded, one more look-up by the generated id.  So the
    hashing precedes the write, the write precedes the read-back, there is
    at most one write, and no look-up by email is ever made. *)
Theorem createUser_queries
    (hashPassword : nat -> string -> Settled string)
    (S : Type) (db : Knex S) (params : CreateUserParams) (rnd : Entropy)
    (s : S) (l : list Call) :
  createUser hashPassword (traced db) params rnd (s, l) =
  (fst (createUser hashPassword db params rnd s),
   (snd (createUser hashPassword db params rnd s),
    (l ++ match hashPassword (salt rnd) (password params) with
          | Rejected _ => []
          | Fulfilled h =>
              let intent := createUserIntent params rnd h in
              match fst (first_where_id db (uuid rnd) s) with
              | Fulfilled (Some _) =>
                  [FirstWhereId (uuid rnd); UpdateWhereId (uuid rnd) intent]
              | Fulfilled None => [FirstWhereId (uuid rnd); Insert intent]
              | Rejected _ => [FirstWhereId (uuid rnd)]
              end
              ++ match fst (saveUser db intent s) with
                 | Fulfilled _ => [FirstWhereId (uuid rnd)]
                 | Rejected _ => []
                 end
          end)%list)).
Proof.
  destruct (hashPassword (salt rnd) (password params)) as [h|e] eqn:Hh.
  - rewrite (createUser_run hashPassword (traced db) params rnd (s, l) h Hh).
    rewrite (createUser_run hashPassword db params rnd s h Hh).
    rewrite saveUser_queries. cbv zeta.
    rewrite userToTableRow_id. simpl.
    destruct (saveUser db (createUserIntent params rnd h) s) as [[[]|e] s1];
      simpl.
    + rewrite findById_run. rewrite (findById_run db). simpl.
      unfold logged. simpl.
      destruct (first_where_id db (uuid rnd) s1) as [[[row|]|e] s2]; simpl;
        repeat rewrite <- app_assoc; reflexivity.
    + rewrite app_nil_r. reflexivity.
  - rewrite (createUser_hash_fails hashPassword (traced db) params rnd (s, l)
               e Hh).
    rewrite (createUser_hash_fails hashPassword db params rnd s e Hh).
    simpl. rewrite app_nil_r. reflexivity.
Qed.

(** ** The errors of [saveUser] *)

(** X3. Whenever [saveUser] rejects, the thrown value is the one a query
    of its own rejected with (the look-up, the update, or the insert), except
    that an insert error matching the duplicate-key text is replaced by
    "Email already exists"; the handle is left as the failing query left
    it. *)
Theorem saveUser_errors (S : Type) (db : Knex S) (u : User) (s s' : S)
    (e : Thrown) :
  saveUser db u s = (Rejected e, s') ->
  first_where_id db (id u) s = (Rejected e, s') \/
  (exists row s1,
     first_where_id db (id u) s = (Fulfilled (Some row), s1) /\
     update_where_id db (id u) (userToTableRow u) s1 = (Rejected e, s')) \/
  (exists err s1,
     first_where_id db (id u) s = (Fulfilled None, s1) /\
     insert db (userToTableRow u) s1 = (Rejected err, s') /\
     e = if isDuplicateKey err then DuplicateEmail else err).
Proof.
  intros H.
  destruct (first_where_id db (id u) s) as [[[row|]|e0] s1] eqn:Hfind.
  - rewrite (saveUser_existing db u s s1 row Hfind) in H.
    right; left. exists row, s1. split; [reflexivity|].
    destruct (update_where_id db (id u) (userToTableRow u) s1)
      as [[[]|e1] s2]; [discriminate|].
    inversion H; subst. reflexivity.
  - rewrite (saveUser_absent db u s s1 Hfind) in H.
    right; right.
    destruct (insert db (userToTableRow u) s1) as [[[]|e1] s2] eqn:Hins;
      [discriminate|].
    exists e1, s1. inversion H; subst. auto.
  - rewrite (saveUser_lookup_fails db u s s1 e0 Hfind) in H.
    left. inversion H; subst. reflexivity.
Qed.

Lemma saveUser_errors_witness :
  exists err s1,
    first_where_id (usersTable fiveColumns) (id carol) two =
      (Fulfilled None, s1) /\
    insert (usersTable fiveColumns) (userToTableRow carol) s1 =
      (Rejected err, two) /\
    DuplicateEmail = if isDuplicateKey err then DuplicateEmail else err.
Proof.
  destruct (saveUser_errors Table (usersTable fiveColumns) carol two two
              DuplicateEmail eq_refl) as [H|[[row [s1 [H _]]]|H]].
  - discriminate H.
  - discriminate H.
  - exact H.
Defined.

(** X4. A thrown value that is not an [Error] is never taken for a
    duplicate: when the insert throws one, [saveUser] rethrows it as it is,
    even if it is the very text [saveUser] looks for in error messages. *)
Theorem saveUser_rethrows_non_errors (S : Type) (db : Knex S) (u : User)
    (s s1 s2 : S) (v : string) :
  first_where_id db (id u) s = (Fulfilled None, s1) ->
  insert db (userToTableRow u) s1 = (Rejected (NotError v), s2) ->
  saveUser db u s = (Rejected (NotError v), s2).
Proof.
  intros Hfind Hins.
  rewrite (saveUser_absent db u s s1 Hfind), Hins. reflexivity.
Qed.

Lemma saveUser_rethrows_non_errors_witness :
  includes duplicateKeyText duplicateKeyText = true /\
  saveUser (refusing (NotError duplicateKeyText)) carol tt =
    (Rejected (NotError duplicateKeyText), tt).
Proof.
  split; [reflexivity|].
  apply (saveUser_rethrows_non_errors unit
           (refusing (NotError duplicateKeyText)) carol tt tt tt
           duplicateKeyText); reflexivity.
Defined.

(** ** [saveUser] on the table, case by case *)

Lemma someone_else_holds (u : User) (l : list Row) :
  existsb (fun x => negb (hasId (id u) x) && hasEmail (email u) x) l = true ->
  exists other,
    In other l /\ row_id other <> id u /\ row_email other = email u.
Proof.
  intros C. apply existsb_exists in C. destruct C as [other [Hother Hc]].
  apply andb_true_iff in Hc. destruct Hc as [Hne Hem].
  unfold hasId, hasEmail, hasKey in Hne, Hem.
  apply negb_true_iff, String.eqb_neq in Hne. apply String.eqb_eq in Hem.
  exists other. auto.
Qed.

Lemma nobody_else_holds (u : User) (l : list Row) :
  existsb (fun x => negb (hasId (id u) x) && hasEmail (email u) x) l = false ->
  forall x, In x l -> row_id x <> id u -> row_email x <> email u.
Proof.
  intros C x Hx Hne Hem.
  assert (T : existsb (fun x => negb (hasId (id u) x) && hasEmail (email u) x)
                      l = true).
  { apply existsb_exists. exists x. split; [exact Hx|].
    unfold hasId, hasEmail, hasKey.
    apply String.eqb_neq in Hne. apply String.eqb_eq in Hem.
    rewrite Hne, Hem. reflexivity. }
  rewrite C in T. discriminate.
Qed.

(** The four ways a [saveUser] on the table can go. *)
Lemma saveUser_cases (driver : Driver) (u : User) (t : Table) :
  (exists r,
     In r (rows t) /\ row_id r = id u /\
     (forall x, In x (rows t) -> row_id x <> id u -> row_email x <> email u) /\
     saveUser (usersTable driver) u t =
       (Fulfilled tt, mkTable (map (replaced (id u) u) (rows t)) (S (now t))))
  \/
  (exists r other,
     In r (rows t) /\ row_id r = id u /\
     In other (rows t) /\ row_id other <> id u /\ row_email other = email u /\
     saveUser (usersTable driver) u t =
       (Rejected (uniqueViolation (updateSql driver) "users_email_unique"), t))
  \/
  ((forall x, In x (rows t) -> row_id x <> id u) /\
   (forall x, In x (rows t) -> row_email x <> email u) /\
   saveUser (usersTable driver) u t =
     (Fulfilled tt, mkTable (rows t ++ [stored u (now t)])%list (S (now t))))
  \/
  (exists other,
     (forall x, In x (rows t) -> row_id x <> id u) /\
     In other (rows t) /\ row_email other = email u /\
     saveUser (usersTable driver) u t =
       (Rejected
          (if isDuplicateKey
                (uniqueViolation (insertSql driver) "users_email_unique")
           then DuplicateEmail
           else uniqueViolation (insertSql driver) "users_email_unique"), t)).
Proof.
  destruct (existsb (hasId (id u)) (rows t)) eqn:E.
  - apply existsb_exists in E. destruct E as [r [Hin Hid]].
    unfold hasId, hasKey in Hid. apply String.eqb_eq in Hid.
    destruct (existsb (fun x => negb (hasId (id u) x) && hasEmail (email u) x)
                      (rows t)) eqn:C.
    + destruct (someone_else_holds u (rows t) C) as [other [Ho [Hne Hem]]].
      right; left. exists r, other.
      repeat (split; [assumption|]).
      apply (saveUser_update_refused driver u t r other); assumption.
    + pose proof (nobody_else_holds u (rows t) C) as Hfree.
      left. exists r. repeat (split; [assumption|]).
      apply (saveUser_updates driver u t r); assumption.
  - pose proof (absent_of_exists row_id (id u) (rows t) E) as Hno.
    destruct (existsb (hasEmail (email u)) (rows t)) eqn:C.
    + apply existsb_exists in C. destruct C as [r [Hin Hem]].
      unfold hasEmail, hasKey in Hem. apply String.eqb_eq in Hem.
      right; right; right. exists r. repeat (split; [assumption|]).
      apply (saveUser_insert_refused driver u t r); assumption.
    + pose proof (absent_of_exists row_email (email u) (rows t) C) as Hfree.
      right; right; left. repeat (split; [assumption|]).
      apply saveUser_inserts; assumption.
Qed.

Lemma replaced_twice (u : User) (r : Row) :
  replaced (id u) u (replaced (id u) u r) = replaced (id u) u r.
Proof.
  unfold replaced at 1. rewrite hasId_replaced.
  unfold replaced. destruct (hasId (id u) r); reflexivity.
Qed.


Lemma hasId_stored (u : User) (n : nat) : hasId (id u) (stored u n) = true.
Proof. unfold hasId, hasKey, stored. simpl. apply String.eqb_refl. Qed.

Lemma hasEmail_stored (u : User) (n : nat) :
  hasEmail (email u) (stored u n) = true.
Proof. unfold hasEmail, hasKey, stored. simpl. apply String.eqb_refl. Qed.

Lemma find_email_replaced (u : User) (l : list Row) :
  (forall x, In x l -> row_id x <> id u -> row_email x <> email u) ->
  find (hasEmail (email u)) (map (replaced (id u) u) l) =
  find (hasId (id u)) (map (replaced (id u) u) l).
Proof.
  induction l as [|x l IH]; intros Hfree; [reflexivity|].
  simpl. rewrite hasId_replaced.
  assert (E : hasEmail (email u) (replaced (id u) u x) = hasId (id u) x).
  { unfold replaced. destruct (hasId (id u) x) eqn:Hx.
    - unfold hasEmail, hasKey, overwrite. simpl. apply String.eqb_refl.
    - unfold hasEmail, hasKey. apply String.eqb_neq.
      apply (Hfree x (or_introl eq_refl)).
      unfold hasId, hasKey in Hx. apply String.eqb_neq. exact Hx. }
  rewrite E. destruct (hasId (id u) x); [reflexivity|].
  apply IH. intros y Hy. apply Hfree. right. exact Hy.
Qed.

(** After a successful [saveUser] the user is found under its id and under
    its email. *)
Lemma saveUser_then_found (driver : Driver) (u : User) (t t' : Table) :
  saveUser (usersTable driver) u t = (Fulfilled tt, t') ->
  findById (usersTable driver) (id u) t' = (Fulfilled (Some u), t') /\
  findByEmail (usersTable driver) (email u) t' = (Fulfilled (Some u), t').
Proof.
  intros H.
  destruct (saveUser_cases driver u t)
    as [[r [Hin [Hid [Hfree E]]]]
       |[[r [o [_ [_ [_ [_ [_ E]]]]]]]
        |[[Hno [Hfree E]]|[o [_ [_ [_ E]]]]]]];
    rewrite E in H; try discriminate; inversion H; subst; clear H.
  - pose proof (reads_back_updated driver u t r Hin Hid) as Hback.
    split; [exact Hback|].
    rewrite findByEmail_table. rewrite findById_table in Hback.
    simpl in *. rewrite (find_email_replaced u (rows t) Hfree).
    exact Hback.
  - split; [apply reads_back_inserted; exact Hno|].
    rewrite findByEmail_table. simpl.
    rewrite find_after.
    + simpl. rewrite hasEmail_stored. destruct u; reflexivity.
    + unfold hasEmail. apply (find_absent row_email _ _ Hfree).
Qed.

(** A refused [saveUser] leaves the table as it was. *)
Lemma saveUser_rejected_same_table (driver : Driver) (u : User)
    (t t' : Table) (e : Thrown) :
  saveUser (usersTable driver) u t = (Rejected e, t') -> t' = t.
Proof.
  intros H.
  destruct (saveUser_cases driver u t)
    as [[r [_ [_ [_ E]]]]
       |[[r [o [_ [_ [_ [_ [_ E]]]]]]]
        |[[_ [_ E]]|[o [_ [_ [_ E]]]]]]];
    rewrite E in H; try discriminate; inversion H; reflexivity.
Qed.

(** [createUser] on the table is the hasher followed by [saveUser]: the
    read-back always finds the record just saved. *)
Lemma createUser_on_table
    (hashPassword : nat -> string -> Settled string)
    (driver : Driver) (params : CreateUserParams) (rnd : Entropy)
    (t : Table) :
  createUser hashPassword (usersTable driver) params rnd t =
  match hashPassword (salt rnd) (password params) with
  | Rejected e => (Rejected e, t)
  | Fulfilled h =>
      match saveUser (usersTable driver) (createUserIntent params rnd h) t with
      | (Fulfilled _, t1) => (Fulfilled (createUserIntent params rnd h), t1)
      | (Rejected e, t1) => (Rejected e, t1)
      end
  end.
Proof.
  destruct (hashPassword (salt rnd) (password params)) as [h|e] eqn:Hh.
  - rewrite (createUser_run hashPassword (usersTable driver) params rnd t h Hh).
    destruct (saveUser (usersTable driver) (createUserIntent params rnd h) t)
      as [[[]|e] t1] eqn:Hsave; [|reflexivity].
    destruct (saveUser_then_found driver _ t t1 Hsave) as [Hback _].
    simpl in Hback. rewrite Hback. reflexivity.
  - apply createUser_hash_fails. exact Hh.
Qed.

(** ** When [saveUser] fails, and what it leaves alone *)

(** On values the columns hold as they are, [saveUser] is rejected exactly
    when a row with another id holds the user's email. *)
Lemma rejected_iff_on_table (driver : Driver) (u : User) (t : Table) :
  ((exists e, fst (saveUser (usersTable driver) u t) = Rejected e) <->
   (exists other,
      In other (rows t) /\ row_id other <> id u /\
      row_email other = email u)) /\
  (forall e t',
     saveUser (usersTable driver) u t = (Rejected e, t') ->
     t' = t /\
     (e = DuplicateEmail \/ constraintOf e = Some "users_email_unique")).
Proof.
  destruct (saveUser_cases driver u t)
    as [[r [Hin [Hid [Hfree E]]]]
       |[[r [o [Hin [Hid [Ho [Hne [Hem E]]]]]]]
        |[[Hno [Hfree E]]|[o [Hno [Ho [Hem E]]]]]]];
    rewrite E; cbn [fst]; (split; [split|]).
  - intros [e He]. discriminate.
  - intros [o [Ho [Hne Hem]]]. exfalso. apply (Hfree o Ho Hne Hem).
  - intros e t' H. discriminate.
  - intros _. exists o. auto.
  - intros _. eexists. reflexivity.
  - intros e t' H. inversion H; subst. split; [reflexivity|].
    right. reflexivity.
  - intros [e He]. discriminate.
  - intros [o [Ho [_ Hem]]]. exfalso. apply (Hfree o Ho Hem).
  - intros e t' H. discriminate.
  - intros _. exists o. split; [exact Ho|]. split; [apply Hno; exact Ho|].
    exact Hem.
  - intros _. eexists. reflexivity.
  - intros e t' H.
    destruct (isDuplicateKey
                (uniqueViolation (insertSql driver) "users_email_unique"));
      inversion H; subst; (split; [reflexivity|]); [left|right]; reflexivity.
Qed.


(** X7. Saving is idempotent: after a [saveUser] that succeeded, saving the
    same user again succeeds and leaves every row as it is. *)
Theorem saveUser_idempotent (driver : Driver) (u : User) (t t1 : Table) :
  saveUser (usersTable driver) u t = (Fulfilled tt, t1) ->
  saveUser (usersTable driver) u t1 =
    (Fulfilled tt, mkTable (rows t1) (S (now t1))).
Proof.
  intros H.
  destruct (saveUser_cases driver u t)
    as [[r [Hin [Hid [Hfree E]]]]
       |[[r [o [_ [_ [_ [_ [_ E]]]]]]]
        |[[Hno [Hfree E]]|[o [_ [_ [_ E]]]]]]];
    rewrite E in H; try discriminate; inversion H; subst; clear H.
  - rewrite (saveUser_updates driver u _ (replaced (id u) u r)).
    + simpl. rewrite map_map.
      rewrite (map_ext _ _ (replaced_twice u)). reflexivity.
    + simpl. apply in_map. exact Hin.
    + unfold replaced, hasId, hasKey. rewrite Hid, String.eqb_refl.
      reflexivity.
    + simpl. intros x Hx Hne. apply in_map_iff in Hx.
      destruct Hx as [y [<- Hy]]. unfold replaced in *.
      destruct (hasId (id u) y) eqn:Ey.
      * exfalso. apply Hne. reflexivity.
      * apply Hfree; assumption.
  - rewrite (saveUser_updates driver u _ (stored u (now t))).
    + simpl. rewrite map_app. simpl.
      rewrite (replaced_elsewhere u (rows t) Hno).
      unfold replaced. rewrite hasId_stored. reflexivity.
    + simpl. apply in_or_app. right. left. reflexivity.
    + reflexivity.
    + simpl. intros x Hx Hne. apply in_app_or in Hx.
      destruct Hx as [Hx|[<-|[]]].
      * apply Hfree. exact Hx.
      * exfalso. apply Hne. reflexivity.
Qed.

Lemma saveUser_idempotent_witness :
  saveUser (usersTable threeColumns) alice
    (mkTable [stored alice 0] 1) =
    (Fulfilled tt, mkTable [stored alice 0] 2).
Proof.
  apply (saveUser_idempotent threeColumns alice empty
           (mkTable [stored alice 0] 1)).
  reflexivity.
Defined.



(** X11. On the table, a rejected [createUser] leaves no trace: the table
    is as it was, and the thrown value is the hasher's or [saveUser]'s.  The
    read-back never comes back empty there, so "Failed to create user" is
    not raised by the check after the save. *)
Theorem createUser_rejected_leaves_table
    (hashPassword : nat -> string -> Settled string)
    (driver : Driver) (params : CreateUserParams) (rnd : Entropy)
    (t t' : Table) (e : Thrown) :
  createUser hashPassword (usersTable driver) params rnd t = (Rejected e, t') ->
  t' = t /\
  (hashPassword (salt rnd) (password params) = Rejected e \/
   exists h,
     hashPassword (salt rnd) (password params) = Fulfilled h /\
     saveUser (usersTable driver) (createUserIntent params rnd h) t =
       (Rejected e, t)).
Proof.
  rewrite createUser_on_table.
  destruct (hashPassword (salt rnd) (password params)) as [h|e0].
  - destruct (saveUser (usersTable driver) (createUserIntent params rnd h) t)
      as [[[]|e1] t1] eqn:Hsave; [discriminate|].
    intros H. inversion H; subst. clear H.
    pose proof (saveUser_rejected_same_table driver _ t t' e Hsave) as ->.
    split; [reflexivity|]. right. exists h. split; [reflexivity | exact Hsave].
  - intros H. inversion H; subst. split; [reflexivity|]. left. reflexivity.
Qed.

Lemma createUser_rejected_leaves_table_witness :
  snd (createUser toyHash (usersTable threeColumns) signup
         (mkEntropy "u9" 3) two) = two.
Proof.
  destruct (createUser_rejected_leaves_table toyHash threeColumns signup
              (mkEntropy "u9" 3) two
              (snd (createUser toyHash (usersTable threeColumns) signup
                      (mkEntropy "u9" 3) two))
              (uniqueViolation (insertSql threeColumns) "users_email_unique")
              eq_refl) as [Hsame _].
  exact Hsame.
Defined.



(** * The migrations *)

Lemma renamed_there (a b : string) (l : list Column) :
  existsb (named a) l = true ->
  existsb (named b) (map (renamed a b) l) = true.
Proof.
  induction l as [|c l IH]; intros H; [discriminate|].
  simpl in *. unfold renamed at 1.
  destruct (named a c); simpl.
  - unfold named at 1. simpl. rewrite String.eqb_refl. reflexivity.
  - rewrite (IH H). apply orb_true_r.
Qed.

Lemma renamed_gone (a b : string) (l : list Column) :
  a <> b -> existsb (named a) (map (renamed a b) l) = false.
Proof.
  intros Hab. induction l as [|c l IH]; [reflexivity|].
  simpl. rewrite IH, orb_false_r. unfold renamed.
  destruct (named a c) eqn:E; [|exact E].
  unfold named. simpl. apply String.eqb_neq. congruence.
Qed.

Lemma renamed_back (a b : string) (l : list Column) :
  existsb (named b) l = false ->
  map (renamed b a) (map (renamed a b) l) = l.
Proof.
  induction l as [|c l IH]; intros H; [reflexivity|].
  simpl in *. apply orb_false_iff in H. destruct H as [Hc Hl].
  rewrite (IH Hl). f_equal.
  unfold renamed at 2. destruct (named a c) eqn:E.
  - unfold renamed, named at 1. simpl. rewrite String.eqb_refl.
    unfold named in E. apply String.eqb_eq in E. subst a.
    destruct c; reflexivity.
  - unfold renamed. rewrite Hc. reflexivity.
Qed.

(** One renaming undone by the opposite one. *)
Lemma renameColumn_back (a b : string) (s s1 : Schema) :
  a <> b ->
  table_users_renameColumn a b s = (Fulfilled tt, s1) ->
  table_users_renameColumn b a s1 = (Fulfilled tt, s) /\
  exists e, fst (table_users_renameColumn a b s1) = Rejected e.
Proof.
  intros Hab. unfold table_users_renameColumn.
  destruct s as [[cols|] exts]; simpl; [|discriminate].
  destruct (existsb (named a) cols) eqn:Ha; simpl; [|discriminate].
  destruct (existsb (named b) cols) eqn:Hb; [discriminate|].
  intros H. inversion H; subst. clear H. simpl.
  rewrite (renamed_there a b cols Ha). simpl.
  rewrite (renamed_gone a b cols Hab). simpl.
  rewrite (renamed_back a b cols Hb).
  split; [reflexivity|]. eexists. reflexivity.
Qed.

(** X13. The column-renaming migration and its reverse undo each other:
    when [up] succeeds, [down] on the result succeeds and gives back the
    schema [up] started from, and the other way round; columns keep their
    place, type and constraints.  Neither can be applied twice in a row, nor
    before the table exists. *)
Theorem change_password_column_name_round_trip (s s1 : Schema) :
  (ChangePasswordColumnName.up s = (Fulfilled tt, s1) ->
   ChangePasswordColumnName.down s1 = (Fulfilled tt, s) /\
   exists e, fst (ChangePasswordColumnName.up s1) = Rejected e) /\
  (ChangePasswordColumnName.down s = (Fulfilled tt, s1) ->
   ChangePasswordColumnName.up s1 = (Fulfilled tt, s) /\
   exists e, fst (ChangePasswordColumnName.down s1) = Rejected e) /\
  (users s = None ->
   exists e, fst (ChangePasswordColumnName.up s) = Rejected e).
Proof.
  split; [|split].
  - apply renameColumn_back. discriminate.
  - apply renameColumn_back. discriminate.
  - intros H. unfold ChangePasswordColumnName.up, table_users_renameColumn.
    rewrite H. eexists. reflexivity.
Qed.

Lemma change_password_column_name_round_trip_witness :
  ChangePasswordColumnName.down
    (mkSchema (Some (map (renamed "password" "passwordHash")
                         CreateUsers.columns)) ["uuid-ossp"]) =
  (Fulfilled tt, mkSchema (Some CreateUsers.columns) ["uuid-ossp"]) /\
  ChangePasswordColumnName.up
    (mkSchema (Some CreateUsers.columns) ["uuid-ossp"]) =
  (Fulfilled tt,
   mkSchema (Some (map (renamed "password" "passwordHash")
                       CreateUsers.columns)) ["uuid-ossp"]) /\
  exists e, fst (ChangePasswordColumnName.up (mkSchema None [])) = Rejected e.
Proof.
  split; [|split].
  - apply (proj1 (change_password_column_name_round_trip
                    (mkSchema (Some CreateUsers.columns) ["uuid-ossp"])
                    (mkSchema (Some (map (renamed "password" "passwordHash")
                                         CreateUsers.columns))
                              ["uuid-ossp"]))).
    reflexivity.
  - apply (proj1 (proj2 (change_password_column_name_round_trip
                    (mkSchema (Some (map (renamed "password" "passwordHash")
                                         CreateUsers.columns))
                              ["uuid-ossp"])
                    (mkSchema (Some CreateUsers.columns) ["uuid-ossp"])))).
    reflexivity.
  - apply (proj2 (proj2 (change_password_column_name_round_trip
                           (mkSchema None []) (mkSchema None [])))).
    reflexivity.
Defined.

(** X14. On a database without the table, the creating migration succeeds
    and its [down] then removes the table again; the extension [uuid-ossp]
    that [up] installs is left installed by [down], so the pair gives back
    the starting schema exactly when the extension was there before.  [up]
    is refused when the table exists, [down] when it does not. *)
Theorem create_users_up_down (s : Schema) :
  (users s = None ->
   exists s1,
     CreateUsers.up s = (Fulfilled tt, s1) /\
     users s1 = Some CreateUsers.columns /\
     In "uuid-ossp" (extensions s1) /\
     CreateUsers.down s1 = (Fulfilled tt, mkSchema None (extensions s1)) /\
     (In "uuid-ossp" (extensions s) ->
      CreateUsers.down s1 = (Fulfilled tt, s)) /\
     (~ In "uuid-ossp" (extensions s) ->
      snd (CreateUsers.down s1) <> s)) /\
  (users s <> None -> exists e, fst (CreateUsers.up s) = Rejected e) /\
  (users s = None -> exists e, fst (CreateUsers.down s) = Rejected e).
Proof.
  split; [|split].
  - intros Hnone. destruct s as [us exts]. cbn [users] in Hnone. subst us.
    unfold CreateUsers.up, CreateUsers.down, bind,
      create_extension_if_not_exists, createTable_users, dropTable_users.
    cbn [users extensions].
    destruct (existsb (String.eqb "uuid-ossp") exts) eqn:E;
      cbn [users extensions].
    + apply existsb_exists in E. destruct E as [x [Hx Ex]].
      apply String.eqb_eq in Ex. subst x.
      eexists. split; [reflexivity|]. cbn [users extensions snd].
      repeat split; try assumption; try reflexivity.
      intros Hn. contradiction.
    + eexists. split; [reflexivity|]. cbn [users extensions snd].
      split; [reflexivity|].
      split; [apply in_or_app; right; left; reflexivity|].
      split; [reflexivity|].
      split.
      * intros Hin. exfalso.
        assert (T : existsb (String.eqb "uuid-ossp") exts = true).
        { apply existsb_exists. exists "uuid-ossp".
          split; [exact Hin | apply String.eqb_refl]. }
        rewrite E in T. discriminate.
      * intros Hn Heq. inversion Heq as [Hext].
        apply Hn. rewrite <- Hext. apply in_or_app. right. left. reflexivity.
  - intros Hsome. destruct s as [[cols|] exts]; [|contradiction].
    unfold CreateUsers.up, bind, create_extension_if_not_exists,
      createTable_users. cbn [users extensions].
    destruct (existsb (String.eqb "uuid-ossp") exts); cbn [users extensions];
      eexists; reflexivity.
  - intros Hnone. unfold CreateUsers.down, dropTable_users. rewrite Hnone.
    eexists. reflexivity.
Qed.

Lemma create_users_up_down_witness :
  CreateUsers.up (mkSchema None []) =
    (Fulfilled tt, mkSchema (Some CreateUsers.columns) ["uuid-ossp"]) /\
  snd (CreateUsers.down (mkSchema (Some CreateUsers.columns) ["uuid-ossp"]))
    <> mkSchema None [] /\
  (exists e,
     fst (CreateUsers.up (mkSchema (Some CreateUsers.columns) ["uuid-ossp"])) =
       Rejected e) /\
  (exists e, fst (CreateUsers.down (mkSchema None [])) = Rejected e).
Proof.
  destruct (create_users_up_down (mkSchema None [])) as [Hup [_ Hdown]].
  destruct (Hup eq_refl) as [s1 [Hs1 [_ [_ [_ [_ Hkeeps]]]]]].
  assert (E : s1 = mkSchema (Some CreateUsers.columns) ["uuid-ossp"]).
  { assert (H : CreateUsers.up (mkSchema None []) =
                (Fulfilled tt,
                 mkSchema (Some CreateUsers.columns) ["uuid-ossp"]))
      by reflexivity.
    rewrite H in Hs1. inversion Hs1. reflexivity. }
  subst s1.
  split; [exact Hs1|].
  split; [apply Hkeeps; intros []|].
  split.
  - apply (proj1 (proj2 (create_users_up_down
                           (mkSchema (Some CreateUsers.columns)
                                     ["uuid-ossp"])))).
    discriminate.
  - apply Hdown. reflexivity.
Defined.

(** X15. The two migrations applied in order to a database without the
    table succeed and leave a table [users] with the columns [id], [email],
    [passwordHash], [created_at], [updated_at]: every field of the rows
    [saveUser] writes is a column, a stored row has exactly these columns,
    the [email] column carries the unique constraint the repository relies
    on, and none of [password_hash], [phone_number], [username] is a column.
    The two [down]s in the opposite order remove the table again. *)
Theorem migrations_fit_repository (s : Schema) :
  users s = None ->
  exists s2,
    (CreateUsers.up ;; ChangePasswordColumnName.up) s = (Fulfilled tt, s2) /\
    column_names s2 =
      ["id"; "email"; "passwordHash"; "created_at"; "updated_at"] /\
    (forall u, incl (fields (asRow (userToTableRow u))) (column_names s2)) /\
    (forall u n, fields (stored u n) = column_names s2) /\
    (exists columns c,
       users s2 = Some columns /\ In c columns /\ col_name c = "email" /\
       col_unique c = true /\ col_notNullable c = true) /\
    ~ In "password_hash" (column_names s2) /\
    ~ In "phone_number" (column_names s2) /\
    ~ In "username" (column_names s2) /\
    (ChangePasswordColumnName.down ;; CreateUsers.down) s2 =
      (Fulfilled tt, mkSchema None (extensions s2)).
Proof.
  intros Hnone. destruct s as [us exts]. cbn [users] in Hnone. subst us.
  unfold CreateUsers.up, bind at 1 2, create_extension_if_not_exists.
  cbn [users extensions].
  destruct (existsb (String.eqb "uuid-ossp") exts);
    (eexists; split; [reflexivity|]);
    (split; [reflexivity|]);
    (split; [intros u x Hx; simpl in Hx; simpl; tauto|]);
    (split; [reflexivity|]);
    (split; [exists (map (renamed "password" "passwordHash")
                         CreateUsers.columns),
                    (mkColumn "email" string_type false true true None);
             repeat split; try reflexivity; right; left; reflexivity|]);
    (split; [simpl; intuition discriminate|]);
    (split; [simpl; intuition discriminate|]);
    (split; [simpl; intuition discriminate|]);
    reflexivity.
Qed.

Lemma migrations_fit_repository_witness :
  exists s2,
    (CreateUsers.up ;; ChangePasswordColumnName.up) (mkSchema None []) =
      (Fulfilled tt, s2) /\
    column_names s2 =
      ["id"; "email"; "passwordHash"; "created_at"; "updated_at"] /\
    fields (stored alice 0) = column_names s2.
Proof.
  destruct (migrations_fit_repository (mkSchema None []) eq_refl)
    as [s2 [Hup [Hnames [_ [Hstored _]]]]].
  exists s2. split; [exact Hup|]. split; [exact Hnames|]. apply Hstored.
Defined.

(** * An id that is already taken *)



(** * The typed columns *)

(** ** Values that are already what the columns hold *)

Lemma varchar255_fits (s : string) :
  String.length s <= 255 -> varchar255 s = Some s.
Proof.
  intros H. unfold varchar255. apply Nat.leb_le in H. rewrite H. reflexivity.
Qed.

Lemma key_value_fits (sql i : string) :
  uuid_in i = Some i -> hasNul i = false -> key_value sql i = Fulfilled i.
Proof.
  intros Hu Hn. unfold key_value. rewrite Hn, Hu. reflexivity.
Qed.

Lemma column_values_fits (sql : string) (u : User) :
  fits_columns u -> column_values sql (userToTableRow u) = Fulfilled u.
Proof.
  intros [Hu [Hi [He [Hh [Le Lh]]]]].
  rewrite userToTableRow_id. unfold column_values.
  rewrite Hi, He, Hh, Hu. cbn [orb].
  rewrite (varchar255_fits _ Le), (varchar255_fits _ Lh).
  destruct u; reflexivity.
Qed.

Section Fits.
Variable wording : Wording.

Lemma pg_first_where_id_fits (i : string) (t : Table) :
  uuid_in i = Some i -> hasNul i = false ->
  first_where_id (pgUsers wording) i t =
  first_where_id (usersTable (writes wording)) i t.
Proof.
  intros Hu Hn. cbn [first_where_id pgUsers usersTable].
  unfold pg_first_where_id, bind, settle.
  rewrite (key_value_fits _ i Hu Hn). reflexivity.
Qed.

Lemma pg_insert_fits (u : User) (t : Table) :
  fits_columns u ->
  insert (pgUsers wording) (userToTableRow u) t =
  insert (usersTable (writes wording)) (userToTableRow u) t.
Proof.
  intros Hf. cbn [insert pgUsers usersTable].
  unfold pg_insert, bind, settle.
  rewrite (column_values_fits _ u Hf), userToTableRow_id. reflexivity.
Qed.

Lemma pg_update_fits (u : User) (t : Table) :
  fits_columns u ->
  update_where_id (pgUsers wording) (id u) (userToTableRow u) t =
  update_where_id (usersTable (writes wording)) (id u) (userToTableRow u) t.
Proof.
  intros Hf. cbn [update_where_id pgUsers usersTable].
  unfold pg_update_where_id, bind, settle.
  rewrite (column_values_fits _ u Hf), userToTableRow_id.
  destruct Hf as [Hu [Hi _]].
  rewrite (key_value_fits _ (id u) Hu Hi). reflexivity.
Qed.

Lemma findById_fits (i : string) (t : Table) :
  uuid_in i = Some i -> hasNul i = false ->
  findById (pgUsers wording) i t = findById (usersTable (writes wording)) i t.
Proof.
  intros Hu Hn. rewrite findById_run, (findById_run (usersTable _)).
  rewrite (pg_first_where_id_fits i t Hu Hn). reflexivity.
Qed.

Lemma findByEmail_fits (a : string) (t : Table) :
  hasNul a = false ->
  findByEmail (pgUsers wording) a t =
  findByEmail (usersTable (writes wording)) a t.
Proof.
  intros Hn. rewrite findByEmail_run, (findByEmail_run (usersTable _)).
  cbn [first_where_email pgUsers usersTable]. unfold pg_first_where_email.
  rewrite Hn. reflexivity.
Qed.

(** For such a user [saveUser] goes as on the plain table. *)
Lemma saveUser_fits (u : User) (t : Table) :
  fits_columns u ->
  saveUser (pgUsers wording) u t = saveUser (usersTable (writes wording)) u t.
Proof.
  intros Hf. pose proof Hf as [Hu [Hi _]].
  pose proof (pg_first_where_id_fits (id u) t Hu Hi) as Hpg.
  destruct (first_where_id (usersTable (writes wording)) (id u) t)
    as [[[row|]|e] t1] eqn:H.
  - rewrite (saveUser_existing _ u t t1 row H).
    rewrite (saveUser_existing _ u t t1 row Hpg).
    rewrite (pg_update_fits u t1 Hf). reflexivity.
  - rewrite (saveUser_absent _ u t t1 H).
    rewrite (saveUser_absent _ u t t1 Hpg).
    rewrite (pg_insert_fits u t1 Hf). reflexivity.
  - rewrite (saveUser_lookup_fails _ u t t1 e H).
    rewrite (saveUser_lookup_fails _ u t t1 e Hpg). reflexivity.
Qed.

(** And so does [createUser] when the record it builds is one. *)
Lemma createUser_fits (hashPassword : nat -> string -> Settled string)
    (params : CreateUserParams) (rnd : Entropy) (t : Table) (h : string) :
  hashPassword (salt rnd) (password params) = Fulfilled h ->
  fits_columns (createUserIntent params rnd h) ->
  createUser hashPassword (pgUsers wording) params rnd t =
  createUser hashPassword (usersTable (writes wording)) params rnd t.
Proof.
  intros Hh Hf. pose proof Hf as [Hu [Hi _]].
  rewrite (createUser_run hashPassword (pgUsers wording) params rnd t h Hh).
  rewrite (createUser_run hashPassword (usersTable _) params rnd t h Hh).
  rewrite (saveUser_fits _ t Hf).
  destruct (saveUser (usersTable (writes wording))
              (createUserIntent params rnd h) t) as [[[]|e] t1];
    [|reflexivity].
  rewrite (findById_fits (uuid rnd) t1 Hu Hi). reflexivity.
Qed.
End Fits.


Lemma fits_anna_renamed : fits_columns (mkUser uuid_a "b@x.com" "$argon2id$1$Z").
Proof. repeat split; try reflexivity; simpl; lia. Qed.

Lemma fits_anna_moved : fits_columns (mkUser uuid_a "new@x.com" "$argon2id$1$Z").
Proof. repeat split; try reflexivity; simpl; lia. Qed.

Lemma fits_cleo : fits_columns cleo.
Proof. repeat split; try reflexivity; simpl; lia. Qed.

(** ** The duplicate email *)

(** C1. A user whose id is not in the table and whose email a row holds:
    the insert [saveUser] issues is refused on the email constraint, and
    [saveUser] is meant to turn that refusal into "Email already exists".
    With the driver quoting that insert, of three columns, the message never
    contains the five-column text the catch looks for, so what comes out is
    the database error itself. *)
Theorem saveUser_duplicate_email_untranslated (t : Table) (u : User)
    (r : Row) :
  fits_columns u ->
  (forall x, In x (rows t) -> row_id x <> id u) ->
  In r (rows t) -> row_email r = email u ->
  saveUser (pgUsers knexPg) u t =
    (Rejected (uniqueViolation (insertSql threeColumns) "users_email_unique"),
     t) /\
  constraintOf (uniqueViolation (insertSql threeColumns) "users_email_unique")
    = Some "users_email_unique" /\
  uniqueViolation (insertSql threeColumns) "users_email_unique"
    <> DuplicateEmail.
Proof.
  intros Hf Hid Hin Hem. split; [|split; [reflexivity | discriminate]].
  rewrite (saveUser_fits knexPg u t Hf).
  rewrite (saveUser_insert_refused (writes knexPg) u t r Hid Hin Hem).
  reflexivity.
Qed.

Lemma saveUser_duplicate_email_untranslated_witness :
  saveUser (pgUsers knexPg) cleo pair =
    (Rejected (uniqueViolation (insertSql threeColumns) "users_email_unique"),
     pair).
Proof.
  apply (saveUser_duplicate_email_untranslated pair cleo (stored anna 0)).
  - exact fits_cleo.
  - intros x [<-|[<-|[]]]; discriminate.
  - left; reflexivity.
  - reflexivity.
Defined.

(** ** The upsert *)

(** C2, as written, fails: the row of [anna] exists, but saving her with the
    email of [bert] is refused and her row keeps its old email. *)
Lemma saveUser_overwrite_refused :
  In (stored anna 0) (rows pair) /\
  row_id (stored anna 0) = id (mkUser uuid_a "b@x.com" "$argon2id$1$Z") /\
  saveUser (pgUsers knexPg) (mkUser uuid_a "b@x.com" "$argon2id$1$Z") pair =
    (Rejected (uniqueViolation (updateSql threeColumns) "users_email_unique"),
     pair) /\
  findById (pgUsers knexPg) uuid_a pair = (Fulfilled (Some anna), pair).
Proof.
  repeat split; try reflexivity. left; reflexivity.
Qed.

(** C2, amended. For a user whose id is a uuid as the database prints it
    and whose email and passwordHash fit their columns: when no row with
    another id holds the email, [saveUser] succeeds and [findById] on the id
    then returns the user as saved; the rows are the old ones with the row of
    that id overwritten in place (the number of rows with that id unchanged)
    when there was one, and the old ones followed by one new row, the only
    one with that id, when there was none.  When a row with another id holds
    the email, [saveUser] is rejected and the table is left as it was. *)
Theorem saveUser_upsert (wording : Wording) (t : Table) (u : User) :
  fits_columns u ->
  ((forall x, In x (rows t) -> row_id x <> id u -> row_email x <> email u) ->
   exists t',
     saveUser (pgUsers wording) u t = (Fulfilled tt, t') /\
     findById (pgUsers wording) (id u) t' = (Fulfilled (Some u), t') /\
     (forall r, In r (rows t) -> row_id r = id u ->
        rows t' = map (replaced (id u) u) (rows t) /\
        length (rows t') = length (rows t) /\
        count_by_id (id u) t' = count_by_id (id u) t) /\
     ((forall r, In r (rows t) -> row_id r <> id u) ->
        rows t' = (rows t ++ [stored u (now t)])%list /\
        count_by_id (id u) t' = 1)) /\
  (forall other,
     In other (rows t) -> row_id other <> id u -> row_email other = email u ->
     exists e, saveUser (pgUsers wording) u t = (Rejected e, t)).
Proof.
  intros Hf. pose proof Hf as [Hu [Hi _]]. split.
  - intros Hfree.
    destruct (upsert_on_table (writes wording) t u Hfree)
      as [t' [Hsave [Hfind Hrest]]].
    exists t'. rewrite (saveUser_fits wording u t Hf).
    rewrite (findById_fits wording (id u) t' Hu Hi).
    split; [exact Hsave|]. split; [exact Hfind | exact Hrest].
  - intros other Hin Hne Hem.
    rewrite (saveUser_fits wording u t Hf).
    destruct (rejected_iff_on_table (writes wording) u t) as [[_ Hif] _].
    destruct Hif as [e He]; [exists other; auto|].
    destruct (saveUser (usersTable (writes wording)) u t) as [res t'] eqn:E.
    cbn [fst] in He. subst res. exists e.
    rewrite (saveUser_rejected_same_table (writes wording) u t t' e E).
    reflexivity.
Qed.

Lemma saveUser_upsert_witness :
  (exists t',
     saveUser (pgUsers knexPg) (mkUser uuid_a "new@x.com" "$argon2id$1$Z")
       pair = (Fulfilled tt, t') /\
     findById (pgUsers knexPg) uuid_a t' =
       (Fulfilled (Some (mkUser uuid_a "new@x.com" "$argon2id$1$Z")), t') /\
     length (rows t') = 2) /\
  (exists e,
     saveUser (pgUsers knexPg) (mkUser uuid_a "b@x.com" "$argon2id$1$Z") pair =
       (Rejected e, pair)).
Proof.
  split.
  - destruct (proj1 (saveUser_upsert knexPg pair
                       (mkUser uuid_a "new@x.com" "$argon2id$1$Z")
                       fits_anna_moved))
      as [t' [Hsave [Hfind [Hupd _]]]].
    + intros x [<-|[<-|[]]] Hne;
        [exfalso; apply Hne; reflexivity | discriminate].
    + exists t'. split; [exact Hsave|]. split; [exact Hfind|].
      destruct (Hupd (stored anna 0) (or_introl eq_refl) eq_refl)
        as [_ [Hlen _]].
      exact Hlen.
  - apply (proj2 (saveUser_upsert knexPg pair
                    (mkUser uuid_a "b@x.com" "$argon2id$1$Z")
                    fits_anna_renamed) (stored bert 1)).
    + right; left; reflexivity.
    + discriminate.
    + reflexivity.
Defined.

(** ** Signing up with a fresh email *)

(** C3, as written, fails: an email of 262 characters that no row holds does
    not fit the [email] column; the insert is refused and [createUser]
    rejects. *)
Lemma createUser_long_email_refused :
  (forall r, In r (rows empty) -> row_email r <> long_local ++ "@x.com") /\
  toyHash 3 "Secret123" = Fulfilled "$argon2id$3$M" /\
  includes "$argon2id$3$M" "Secret123" = false /\
  createUser toyHash (pgUsers knexPg)
    (mkParams (long_local ++ "@x.com") "Secret123") (mkEntropy uuid_c 3)
    empty =
  (Rejected (valueTooLong (insertSql threeColumns)), empty).
Proof.
  split; [intros r []|]. repeat split; reflexivity.
Qed.

(** C3, amended. When no row holds the submitted email, the email fits its
    column, the generated id is a uuid as the database prints it, and the
    hasher returns a value that fits its column and neither equals nor
    contains the password, [createUser] succeeds and returns the user with
    the generated id, the submitted email and that value as [passwordHash];
    the table gains that user's row (or, had the id been there, has that
    row overwritten). *)
Theorem createUser_fresh_email
    (hashPassword : nat -> string -> Settled string)
    (wording : Wording) (t : Table) (params : CreateUserParams)
    (rnd : Entropy) (h : string) :
  (forall r, In r (rows t) -> row_email r <> params_email params) ->
  fits_columns (mkUser (uuid rnd) (params_email params) h) ->
  hashPassword (salt rnd) (password params) = Fulfilled h ->
  h <> password params ->
  includes h (password params) = false ->
  let created := mkUser (uuid rnd) (params_email params) h in
  createUser hashPassword (pgUsers wording) params rnd t =
    (Fulfilled created,
     if existsb (hasId (uuid rnd)) (rows t)
     then mkTable (map (replaced (uuid rnd) created) (rows t)) (S (now t))
     else mkTable (rows t ++ [stored created (now t)])%list (S (now t))) /\
  email created = params_email params /\
  passwordHash created <> password params /\
  includes (passwordHash created) (password params) = false.
Proof.
  intros Hfree Hf Hh Hne Hinc created.
  split; [|repeat split; assumption].
  rewrite (createUser_fits wording hashPassword params rnd t h Hh Hf).
  rewrite createUser_on_table, Hh.
  change (createUserIntent params rnd h) with created.
  destruct (existsb (hasId (uuid rnd)) (rows t)) eqn:E.
  - apply existsb_exists in E. destruct E as [r [Hin Hid]].
    unfold hasId, hasKey in Hid. apply String.eqb_eq in Hid.
    rewrite (saveUser_updates (writes wording) created t r Hin Hid).
    + reflexivity.
    + intros x Hx _. apply Hfree. exact Hx.
  - pose proof (absent_of_exists row_id (uuid rnd) (rows t) E) as Hno.
    rewrite (saveUser_inserts (writes wording) created t Hno Hfree).
    reflexivity.
Qed.

Lemma createUser_fresh_email_witness :
  createUser toyHash (pgUsers knexPg) (mkParams "c@x.com" "Secret123")
    (mkEntropy uuid_c 3) pair =
  (Fulfilled (mkUser uuid_c "c@x.com" "$argon2id$3$M"),
   mkTable [stored anna 0; stored bert 1;
            stored (mkUser uuid_c "c@x.com" "$argon2id$3$M") 2] 3).
Proof.
  apply (createUser_fresh_email toyHash knexPg pair
           (mkParams "c@x.com" "Secret123") (mkEntropy uuid_c 3)
           "$argon2id$3$M").
  - intros r [<-|[<-|[]]]; discriminate.
  - repeat split; try reflexivity; simpl; lia.
  - reflexivity.
  - discriminate.
  - reflexivity.
Defined.

(** ** Looking users up *)




(** ** More on [saveUser] with the typed columns *)

(** X5. For a user whose id is a uuid as the database prints it and whose
    email and passwordHash fit their columns, [saveUser] is rejected exactly
    when a row with another id holds the user's email.  It then leaves the
    table as it was, and what it throws is "Email already exists" or a
    violation of the email constraint, never of the primary key: the
    look-up by id that comes first rules that out. *)
Theorem saveUser_rejected_iff (wording : Wording) (u : User) (t : Table) :
  fits_columns u ->
  ((exists e, fst (saveUser (pgUsers wording) u t) = Rejected e) <->
   (exists other,
      In other (rows t) /\ row_id other <> id u /\
      row_email other = email u)) /\
  (forall e t',
     saveUser (pgUsers wording) u t = (Rejected e, t') ->
     t' = t /\
     (e = DuplicateEmail \/ constraintOf e = Some "users_email_unique")).
Proof.
  intros Hf. rewrite (saveUser_fits wording u t Hf).
  apply rejected_iff_on_table.
Qed.

Lemma saveUser_rejected_iff_witness :
  (exists e, fst (saveUser (pgUsers knexPg) cleo pair) = Rejected e) /\
  ~ (exists e, fst (saveUser (pgUsers knexPg)
                      (mkUser uuid_a "new@x.com" "$argon2id$1$Z") pair)
               = Rejected e).
Proof.
  split.
  - apply (proj1 (saveUser_rejected_iff knexPg cleo pair fits_cleo)).
    exists (stored anna 0).
    split; [left; reflexivity|]. split; [discriminate | reflexivity].
  - intros Hrej.
    apply (proj1 (saveUser_rejected_iff knexPg _ pair fits_anna_moved))
      in Hrej.
    destruct Hrej as [other [[<-|[<-|[]]] [Hne Hem]]].
    + apply Hne. reflexivity.
    + discriminate.
Defined.

(** X8. For a user whose id is a uuid as the database prints it and whose
    email and passwordHash fit their columns, a successful [saveUser] can be
    read back both ways: [findById] on the id and [findByEmail] on the email
    return the user as saved.  On a table whose ids and emails were
    distinct, exactly one row then has that id and exactly one has that
    email. *)
Theorem saveUser_then_lookup (wording : Wording) (u : User) (t t' : Table) :
  fits_columns u ->
  saveUser (pgUsers wording) u t = (Fulfilled tt, t') ->
  findById (pgUsers wording) (id u) t' = (Fulfilled (Some u), t') /\
  findByEmail (pgUsers wording) (email u) t' = (Fulfilled (Some u), t') /\
  (keys_ok t ->
   count_by_id (id u) t' = 1 /\ count_by_email (email u) t' = 1).
Proof.
  intros Hf H. pose proof Hf as [Hu [Hi [He _]]].
  rewrite (saveUser_fits wording u t Hf) in H.
  rewrite (findById_fits wording (id u) t' Hu Hi).
  rewrite (findByEmail_fits wording (email u) t' He).
  destruct (saveUser_then_found (writes wording) u t t' H) as [Hid Hem].
  split; [exact Hid|]. split; [exact Hem|].
  intros Hk.
  pose proof (saveUser_keeps_keys (writes wording) u t Hk) as [Hids Hemails].
  rewrite H in Hids, Hemails. simpl in Hids, Hemails.
  rewrite findById_table in Hid. rewrite findByEmail_table in Hem.
  split.
  - destruct (find (hasId (id u)) (rows t')) as [r|] eqn:E;
      [|discriminate].
    apply find_some in E. destruct E as [Hin Hr].
    unfold hasId, hasKey in Hr. apply String.eqb_eq in Hr.
    unfold count_by_id, hasId. rewrite <- Hr.
    apply (count_unique row_id); assumption.
  - destruct (find (hasEmail (email u)) (rows t')) as [r|] eqn:E;
      [|discriminate].
    apply find_some in E. destruct E as [Hin Hr].
    unfold hasEmail, hasKey in Hr. apply String.eqb_eq in Hr.
    unfold count_by_email, hasEmail. rewrite <- Hr.
    apply (count_unique row_email); assumption.
Qed.

Lemma saveUser_then_lookup_witness :
  findById (pgUsers knexPg) uuid_a
    (mkTable [stored (mkUser uuid_a "new@x.com" "$argon2id$1$Z") 0;
              stored bert 1] 3) =
    (Fulfilled (Some (mkUser uuid_a "new@x.com" "$argon2id$1$Z")),
     mkTable [stored (mkUser uuid_a "new@x.com" "$argon2id$1$Z") 0;
              stored bert 1] 3) /\
  findByEmail (pgUsers knexPg) "new@x.com"
    (mkTable [stored (mkUser uuid_a "new@x.com" "$argon2id$1$Z") 0;
              stored bert 1] 3) =
    (Fulfilled (Some (mkUser uuid_a "new@x.com" "$argon2id$1$Z")),
     mkTable [stored (mkUser uuid_a "new@x.com" "$argon2id$1$Z") 0;
              stored bert 1] 3).
Proof.
  destruct (saveUser_then_lookup knexPg
              (mkUser uuid_a "new@x.com" "$argon2id$1$Z") pair
              (mkTable [stored (mkUser uuid_a "new@x.com" "$argon2id$1$Z") 0;
                        stored bert 1] 3) fits_anna_moved eq_refl)
    as [Hid [Hem _]].
  split; [exact Hid | exact Hem].
Defined.
